(** * coraxbot: the Keycloak OAuth2/PKCE login gateway of [app.py]

    A shallow embedding of the Flask application in [src/app.py] and the
    properties of its authorization flow.

    Conventions of the embedding:
    - a Python [str] is a [string] holding its UTF-8 bytes, Python [bytes]
      is a [list byte];
    - a Python [dict] with string keys (the Flask session, a decoded JSON
      object, [request.args]) is a [gmap string _]; a dict whose order is
      observable (form data, query parameters) is an association list;
    - a handler is a computation in the monad [M]: it threads the machine
      state (session, flashed messages, the log of outbound calls) and
      either returns a value or raises a Python exception;
    - everything outside the process (the network, [os.system], the
      random source) is an oracle of type [World]. *)

From stdpp Require Import gmap strings list fin_maps.
From Stdlib Require Import ZArith Lia Ascii.
From Stdlib Require String Strings.Byte.

#[local] Open Scope Z_scope.
#[local] Set Warnings "-register-all".

(** ** Python values *)

(** The values that travel through the session and through decoded JSON.
    (JSON floats do not occur in the fields the application reads and are
    not represented.) *)
Inductive pyval :=
| VNone
| VBool (b : bool)
| VInt (z : Z)
| VStr (s : string)
| VList (l : list pyval)
| VDict (d : gmap string pyval).

(** [bool(s)] for a [str]. *)
Definition str_truthy (s : string) : bool :=
  match s with EmptyString => false | String _ _ => true end.

(** [bool(v)]: the truth value Python gives [v] in [if v], [not v], [a or b]. *)
Definition truthy (v : pyval) : bool :=
  match v with
  | VNone => false
  | VBool b => b
  | VInt z => negb (z =? 0)
  | VStr s => str_truthy s
  | VList l => match l with [] => false | _ :: _ => true end
  | VDict d => negb (bool_decide (dom d = ∅))
  end.

(** [a or b]. *)
Definition py_or (a b : pyval) : pyval := if truthy a then a else b.

(** [s == v] where [s] is a [str]: only an equal [str] compares equal. *)
Definition str_eq (s : string) (v : pyval) : bool :=
  match v with VStr t => bool_decide (s = t) | _ => false end.

(** The result of [MultiDict.get(key)]: the value, or [None]. *)
Definition of_arg (o : option string) : pyval :=
  match o with Some s => VStr s | None => VNone end.

(** [a != b] where [a] came out of [request.args.get]. *)
Definition arg_ne (a : option string) (b : pyval) : bool :=
  match a with
  | Some s => negb (str_eq s b)
  | None => match b with VNone => false | _ => true end
  end.

(** An f-string: literal text and interpolated values, in order. *)
Inductive piece :=
| Lit (s : string)
| Val (v : pyval).

Definition fstring := list piece.

(** ** Exceptions *)

(** [RequestException cls msg] is an instance of the subclass [cls] of
    [requests.RequestException] (HTTPError, ConnectionError, Timeout, ...);
    [PyException cls msg] is any exception outside that hierarchy. *)
Inductive exn :=
| RequestException (cls : string) (msg : fstring)
| PyException (cls : string) (msg : fstring).

(** [str(e)] *)
Definition exn_str (e : exn) : fstring :=
  match e with RequestException _ m => m | PyException _ m => m end.

Inductive outcome (A : Type) :=
| Ok (a : A)
| Raise (e : exn).
Arguments Ok {A} a.
Arguments Raise {A} e.

(** ** HTTP, as [requests] shows it to the application *)

Inductive payload :=
| NoData
| FormData (fields : list (string * pyval))   (* data=dict: form-encoded *)
| JsonDumps (v : pyval).                      (* data=json.dumps(v) *)

Record http_request := {
  rq_method : string;
  rq_url : string;
  rq_headers : list (string * fstring);
  rq_data : payload;
  rq_timeout : option Z;
  rq_verify : bool;
  rq_allow_redirects : bool;
}.

Record http_response := {
  status_code : Z;
  reason : string;
  rs_url : string;
  rs_json : outcome pyval;     (* what [.json()] does: a value or an exception *)
}.

(** ** The world outside the process *)

Record World := {
  (** [os.system(cmd)]: the exit status, given the commands run so far. *)
  w_system : list string → string → Z;
  (** [secrets.token_bytes(n)] at the [k]-th draw. *)
  w_token_bytes : nat → nat → list Byte.byte;
  (** the answer to an HTTP request, given the requests sent so far:
      a response, or an exception raised by the transport. *)
  w_send : list http_request → http_request → outcome http_response;
}.

(** ** Machine state and the handler monad *)

Record machine := {
  session : gmap string pyval;            (* flask.session *)
  flashes : list (string * fstring);      (* (category, message), oldest first *)
  sent : list http_request;               (* outbound HTTP calls, oldest first *)
  commands : list string;                 (* os.system calls, oldest first *)
  draws : nat;                            (* random tokens drawn so far *)
}.

Definition M (A : Type) : Type := machine → outcome A * machine.

#[export] Instance M_ret : MRet M := λ A a m, (Ok a, m).
#[export] Instance M_bind : MBind M := λ A B f c m,
  match c m with
  | (Ok a, m') => f a m'
  | (Raise e, m') => (Raise e, m')
  end.

Definition raise {A} (e : exn) : M A := λ m, (Raise e, m).

Definition lift {A} (o : outcome A) : M A := λ m, (o, m).

(** [try: body  except requests.RequestException as e: handler(e)] *)
Definition try_except_RequestException {A} (body : M A) (handler : exn → M A) : M A :=
  λ m,
    match body m with
    | (Raise (RequestException cls msg), m') => handler (RequestException cls msg) m'
    | r => r
    end.

Definition with_session (s : gmap string pyval) (m : machine) : machine :=
  {| session := s; flashes := flashes m; sent := sent m;
     commands := commands m; draws := draws m |}.

Definition add_flash (f : string * fstring) (m : machine) : machine :=
  {| session := session m; flashes := flashes m ++ [f]; sent := sent m;
     commands := commands m; draws := draws m |}.

Definition add_sent (rq : http_request) (m : machine) : machine :=
  {| session := session m; flashes := flashes m; sent := sent m ++ [rq];
     commands := commands m; draws := draws m |}.

Definition set_session (f : gmap string pyval → gmap string pyval) : M unit :=
  λ m, (Ok tt, with_session (f (session m)) m).

(** [session.get(key)] *)
Definition session_get (key : string) : M pyval :=
  λ m, (Ok (default VNone (session m !! key)), m).

(** [session.get(key, dflt)] *)
Definition session_get_default (key : string) (dflt : pyval) : M pyval :=
  λ m, (Ok (default dflt (session m !! key)), m).

(** [session[key] = v] *)
Definition session_set (key : string) (v : pyval) : M unit :=
  set_session (insert key v).

(** [session.pop(key, None)] *)
Definition session_pop (key : string) : M unit :=
  set_session (delete key).

(** [flash(message, category)]: Flask appends the pair to the list it
    keeps in the session under its own key [_flashes]; the list is kept
    beside the application's keys here. *)
Definition flash (message : fstring) (category : string) : M unit :=
  λ m, (Ok tt, add_flash (category, message) m).

(** [session.clear()]: empties the whole dict, Flask's [_flashes] included. *)
Definition session_clear : M unit :=
  λ m, (Ok tt, {| session := ∅; flashes := []; sent := sent m;
                  commands := commands m; draws := draws m |}).

(** [v.get(key, dflt)] on a decoded JSON value: defined on dicts only. *)
Definition py_get_default (v : pyval) (key : string) (dflt : pyval) : M pyval :=
  match v with
  | VDict d => mret (default dflt (d !! key))
  | VNone => raise (PyException "AttributeError"
                      [Lit "'NoneType' object has no attribute 'get'"])
  | _ => raise (PyException "AttributeError" [Lit "object has no attribute 'get'"])
  end.

(** [v.get(key)] *)
Definition py_get (v : pyval) (key : string) : M pyval := py_get_default v key VNone.

(** [s in t] for strings: [s] occurs in [t]. *)
Fixpoint str_contains (s t : string) : bool :=
  String.prefix s t ||
  match t with EmptyString => false | String _ t' => str_contains s t' end.

(** [key in v] with a [str] key. *)
Definition py_in (key : string) (v : pyval) : M bool :=
  match v with
  | VDict d => mret (bool_decide (is_Some (d !! key)))
  | VList l => mret (existsb (str_eq key) l)
  | VStr t => mret (str_contains key t)
  | _ => raise (PyException "TypeError" [Lit "argument is not iterable"])
  end.

(** ** The library functions the application calls *)

(** Python's [bytes] are lists of [Byte.byte]; arithmetic is done on their
    values in [Z]. *)
Definition byte_val (b : Byte.byte) : Z := Z.of_N (Byte.to_N b).

Definition byte_of_Z (z : Z) : Byte.byte :=
  default Byte.x00 (Byte.of_N (Z.to_N (z mod 256))).

Definition is_ascii_byte (b : Byte.byte) : bool := byte_val b <? 128.

(** [s.encode('ascii')] *)
Definition encode_ascii (s : string) : outcome (list Byte.byte) :=
  let bs := String.list_byte_of_string s in
  if forallb is_ascii_byte bs then Ok bs
  else Raise (PyException "UnicodeEncodeError"
                [Lit "'ascii' codec can't encode character: ordinal not in range(128)"]).

(** [bs.decode('ascii')] *)
Definition decode_ascii (bs : list Byte.byte) : outcome string :=
  if forallb is_ascii_byte bs then Ok (String.string_of_list_byte bs)
  else Raise (PyException "UnicodeDecodeError"
                [Lit "'ascii' codec can't decode byte: ordinal not in range(128)"]).

(** [hashlib.sha256(data).digest()], after FIPS 180-4; words are integers
    below [2^32]. *)
Module hashlib.

Definition mask32 : Z := 0xFFFFFFFF.
Definition add32 (a b : Z) : Z := Z.land (a + b) mask32.
Definition rotr (n x : Z) : Z :=
  Z.lor (Z.shiftr x n) (Z.land (Z.shiftl x (32 - n)) mask32).
Definition not32 (x : Z) : Z := Z.lxor x mask32.

Definition Ch (x y z : Z) : Z := Z.lxor (Z.land x y) (Z.land (not32 x) z).
Definition Maj (x y z : Z) : Z :=
  Z.lxor (Z.lxor (Z.land x y) (Z.land x z)) (Z.land y z).
Definition Sigma0 (x : Z) : Z := Z.lxor (Z.lxor (rotr 2 x) (rotr 13 x)) (rotr 22 x).
Definition Sigma1 (x : Z) : Z := Z.lxor (Z.lxor (rotr 6 x) (rotr 11 x)) (rotr 25 x).
Definition sigma0 (x : Z) : Z := Z.lxor (Z.lxor (rotr 7 x) (rotr 18 x)) (Z.shiftr x 3).
Definition sigma1 (x : Z) : Z := Z.lxor (Z.lxor (rotr 17 x) (rotr 19 x)) (Z.shiftr x 10).

Definition is_prime (n : Z) : bool :=
  (1 <? n) && forallb (λ d, negb (n mod d =? 0)) (seqZ 2 (n - 2)).

(** The first 64 primes, 2 to 311. *)
Definition primes : list Z := List.filter is_prime (seqZ 2 310).

(** The largest [x] below [2^bits] with [x^k <= n], one bit at a time. *)
Fixpoint int_root (k : Z) (bits : nat) (n x : Z) : Z :=
  match bits with
  | O => x
  | S b =>
      let y := x + 2 ^ Z.of_nat b in
      if y ^ k <=? n then int_root k b n y else int_root k b n x
  end.

(** The first 32 bits of the fractional part of the [k]-th root of [p]. *)
Definition root_fraction (k p : Z) : Z :=
  Z.land (int_root k 36 (p * 2 ^ (32 * k)) 0) mask32.

(** The round constants: the cube roots of the first 64 primes. *)
Definition K : list Z := root_fraction 3 <$> primes.

(** The initial hash value: the square roots of the first 8 primes. *)
Definition H0 : list Z := root_fraction 2 <$> take 8 primes.

(** [n] as [k] big-endian bytes. *)
Fixpoint be_bytes (k : nat) (n : Z) : list Z :=
  match k with
  | O => []
  | S k' => Z.land (Z.shiftr n (8 * Z.of_nat k')) 255 :: be_bytes k' n
  end.

(** The message followed by 0x80, zeros up to 56 modulo 64, and the bit
    length on 8 bytes. *)
Definition pad (msg : list Z) : list Z :=
  let len := Z.of_nat (length msg) in
  let zeros := Z.to_nat ((55 - len) mod 64) in
  msg ++ [128] ++ repeat 0 zeros ++ be_bytes 8 (8 * len).

Fixpoint blocks (fuel : nat) (size : nat) (l : list Z) : list (list Z) :=
  match fuel, l with
  | O, _ | _, [] => []
  | S fuel', _ => take size l :: blocks fuel' size (drop size l)
  end.

Definition word_of_bytes (bs : list Z) : Z :=
  fold_left (λ acc b, Z.lor (Z.shiftl acc 8) b) bs 0.

(** The message schedule, most recent word first. *)
Fixpoint extend (n : nat) (rev_w : list Z) : list Z :=
  match n with
  | O => rev_w
  | S n' =>
      let w := add32 (add32 (sigma1 (nth 1 rev_w 0)) (nth 6 rev_w 0))
                     (add32 (sigma0 (nth 14 rev_w 0)) (nth 15 rev_w 0)) in
      extend n' (w :: rev_w)
  end.

Definition schedule (block : list Z) : list Z :=
  rev (extend 48 (rev (word_of_bytes <$> blocks 16 4 block))).

Definition round (st : list Z) (kw : Z * Z) : list Z :=
  match st with
  | [a; b; c; d; e; f; g; h] =>
      let t1 := add32 (add32 (add32 h (Sigma1 e)) (add32 (Ch e f g) kw.1)) kw.2 in
      let t2 := add32 (Sigma0 a) (Maj a b c) in
      [add32 t1 t2; a; b; c; add32 d t1; e; f; g]
  | _ => st
  end.

Definition compress (h : list Z) (block : list Z) : list Z :=
  zip_with add32 h (fold_left round (zip K (schedule block)) h).

Definition sha256 (data : list Byte.byte) : list Byte.byte :=
  let padded := pad (byte_val <$> data) in
  let h := fold_left compress (blocks (length padded) 64 padded) H0 in
  byte_of_Z <$> (h ≫= be_bytes 4).

End hashlib.

Module base64.

Definition urlsafe_alphabet : list Byte.byte :=
  String.list_byte_of_string "ABCDEFGHIJKLMNOPQRSTUVWXYZabcdefghijklmnopqrstuvwxyz0123456789-_".

Definition digit (i : Z) : Byte.byte :=
  nth (Z.to_nat (Z.land i 63)) urlsafe_alphabet Byte.x3d.

Definition pad_byte : Byte.byte := Byte.x3d.    (* b'=' *)

(** [base64.urlsafe_b64encode(s)] *)
Fixpoint urlsafe_b64encode (s : list Byte.byte) : list Byte.byte :=
  match s with
  | [] => []
  | [x] =>
      let a := byte_val x in
      [digit (Z.shiftr a 2); digit (Z.shiftl a 4); pad_byte; pad_byte]
  | [x; y] =>
      let a := byte_val x in
      let b := byte_val y in
      [digit (Z.shiftr a 2); digit (Z.lor (Z.shiftl a 4) (Z.shiftr b 4));
       digit (Z.shiftl b 2); pad_byte]
  | x :: y :: z :: rest =>
      let a := byte_val x in
      let b := byte_val y in
      let c := byte_val z in
      digit (Z.shiftr a 2) :: digit (Z.lor (Z.shiftl a 4) (Z.shiftr b 4))
        :: digit (Z.lor (Z.shiftl b 2) (Z.shiftr c 6)) :: digit c
        :: urlsafe_b64encode rest
  end.

End base64.

Fixpoint lstrip_byte (c : Byte.byte) (bs : list Byte.byte) : list Byte.byte :=
  match bs with
  | [] => []
  | b :: rest => if Byte.eqb b c then lstrip_byte c rest else bs
  end.

(** [bs.rstrip(c)] for a single byte [c] *)
Definition rstrip_byte (c : Byte.byte) (bs : list Byte.byte) : list Byte.byte :=
  rev (lstrip_byte c (rev bs)).

(** [secrets.token_urlsafe(nbytes)], given the bytes [secrets.token_bytes]
    returned. *)
Definition token_urlsafe_of (tok : list Byte.byte) : outcome string :=
  decode_ascii (rstrip_byte base64.pad_byte (base64.urlsafe_b64encode tok)).

(** [urllib.parse]: percent-encoding works on the UTF-8 bytes of the
    string, which is what a [string] holds here. *)
Module urllib.

Definition in_range (lo hi n : N) : bool := ((lo <=? n) && (n <=? hi))%N.

(** The bytes [quote] never escapes: letters, digits and [_.-~]. *)
Definition always_safe (c : ascii) : bool :=
  let n := N_of_ascii c in
  in_range 65 90 n || in_range 97 122 n || in_range 48 57 n
  || (n =? 95)%N || (n =? 46)%N || (n =? 45)%N || (n =? 126)%N.

Definition hex_digit (n : N) : ascii :=
  ascii_of_N (if (n <? 10)%N then 48 + n else 55 + n)%N.

Definition quoter (safe : list ascii) (c : ascii) : string :=
  if always_safe c || existsb (Ascii.eqb c) safe then String c ""
  else
    let n := N_of_ascii c in
    String "%"%char (String (hex_digit (n / 16)) (String (hex_digit (n mod 16)) "")).

(** [quote(s, safe)] *)
Fixpoint quote (safe : list ascii) (s : string) : string :=
  match s with
  | EmptyString => ""
  | String c rest => quoter safe c +:+ quote safe rest
  end.

Fixpoint has_char (a : ascii) (s : string) : bool :=
  match s with
  | EmptyString => false
  | String c rest => Ascii.eqb c a || has_char a rest
  end.

(** [s.replace(a, b)] for single characters *)
Fixpoint replace_char (a b : ascii) (s : string) : string :=
  match s with
  | EmptyString => ""
  | String c rest => String (if Ascii.eqb c a then b else c) (replace_char a b rest)
  end.

(** [quote_plus(s)] *)
Definition quote_plus (s : string) : string :=
  if negb (has_char " "%char s) then quote [] s
  else replace_char " "%char "+"%char (quote [" "%char] s).

(** ['&'.join(l)] *)
Fixpoint join_amp (l : list string) : string :=
  match l with
  | [] => ""
  | [x] => x
  | x :: rest => x +:+ "&" +:+ join_amp rest
  end.

(** [urlencode(query)] for a dict of strings, in insertion order *)
Definition urlencode (query : list (string * string)) : string :=
  join_amp ((λ kv, quote_plus kv.1 +:+ "=" +:+ quote_plus kv.2) <$> query).

End urllib.

(** ** Flask *)

Inductive response :=
| Redirect (location : string)                              (* redirect(location) *)
| Jsonify (body : gmap string pyval) (status : Z)           (* jsonify(body), status *)
| RenderTemplate (name : string) (context : gmap string pyval).

(** [url_for(endpoint)] over the routes of the application *)
Definition url_for (endpoint : string) : string :=
  if String.eqb endpoint "web" then "/"
  else if String.eqb endpoint "login" then "/login"
  else if String.eqb endpoint "logout" then "/logout"
  else if String.eqb endpoint "keycloak_oauth_init" then "/oauth/keycloak/init"
  else if String.eqb endpoint "keycloak_oauth_callback" then "/oauth/keycloak/callback"
  else "".

(** ** requests *)

(** One outbound call: the world answers, the call is logged. *)
Definition http_send (w : World) (rq : http_request) : M http_response :=
  λ m, match w_send w (sent m) rq with
       | Ok r => (Ok r, add_sent rq m)
       | Raise e => (Raise e, add_sent rq m)
       end.

(** [response.raise_for_status()]: HTTPError on a 4xx or 5xx status. *)
Definition raise_for_status (r : http_response) : M unit :=
  if (400 <=? status_code r) && (status_code r <? 500) then
    raise (RequestException "HTTPError"
             [Val (VInt (status_code r)); Lit " Client Error: "; Lit (reason r);
              Lit " for url: "; Lit (rs_url r)])
  else if (500 <=? status_code r) && (status_code r <? 600) then
    raise (RequestException "HTTPError"
             [Val (VInt (status_code r)); Lit " Server Error: "; Lit (reason r);
              Lit " for url: "; Lit (rs_url r)])
  else mret tt.

(** [response.json()] *)
Definition response_json (r : http_response) : M pyval := lift (rs_json r).

(** ** Configuration: the module-level globals read from the environment *)

Record Config := {
  USERNAME : string;
  PASSWORD : string;
  KEYCLOAK_URL : string;
  KEYCLOAK_REALM : string;
  KEYCLOAK_CLIENT_ID : string;
  KEYCLOAK_CLIENT_SECRET : string;
  APP_ORIGIN : string;
  CLOUD_CLIENT_ID : string;
  CLOUD_CLIENT_SECRET : string;
}.

(** ** The application *)

Section App.

Context (cfg : Config) (w : World).

(** [GET /] *)
Definition web : M response :=
  is_authed ← session_get_default "is_authed" (VBool false);
  user_info ←
    (if truthy is_authed then
       name ← session_get "user_name";
       email ← session_get "user_email";
       cloud_project_id ← session_get "user_cloud_project_id";
       all_vms ← session_get "all_vms";
       mret (VDict (<["name" := name]> (<["email" := email]>
              (<["cloud_project_id" := cloud_project_id]>
              (<["all_vms" := all_vms]> ∅)))))
     else mret VNone);
  mret (RenderTemplate "index.html"
          (<["is_authed" := is_authed]> (<["user_info" := user_info]> ∅))).

(** [POST /login] *)
Definition login (form : gmap string string) : M response :=
  let login_val := default "" (form !! "login") in
  let password_val := default "" (form !! "password") in
  if bool_decide (login_val = USERNAME cfg) && bool_decide (password_val = PASSWORD cfg) then
    session_set "is_authed" (VBool true);;
    flash [Lit "Успешный вход"] "success";;
    mret (Redirect (url_for "web"))
  else
    flash [Lit "Неверный логин или пароль"] "error";;
    mret (Redirect (url_for "web")).

(** [POST /logout] *)
Definition logout : M response :=
  session_clear;;
  flash [Lit "Вы вышли из системы"] "info";;
  mret (Redirect (url_for "web")).

(** [secrets.token_urlsafe(nbytes)]: one draw from the random source. *)
Definition token_urlsafe (nbytes : nat) : M string :=
  λ m, (token_urlsafe_of (w_token_bytes w (draws m) nbytes),
        {| session := session m; flashes := flashes m; sent := sent m;
           commands := commands m; draws := S (draws m) |}).

(** [os.system(cmd)] *)
Definition os_system (cmd : string) : M Z :=
  λ m, (Ok (w_system w (commands m) cmd),
        {| session := session m; flashes := flashes m; sent := sent m;
           commands := commands m ++ [cmd]; draws := draws m |}).

Definition generate_code_verifier : M string := token_urlsafe 32.

Definition generate_code_challenge (code_verifier : string) : outcome string :=
  match encode_ascii code_verifier with
  | Ok bs =>
      let digest := hashlib.sha256 bs in
      decode_ascii (rstrip_byte base64.pad_byte (base64.urlsafe_b64encode digest))
  | Raise e => Raise e
  end.

(** [POST /oauth/keycloak/init] *)
Definition keycloak_oauth_init : M response :=
  if negb (str_truthy (KEYCLOAK_URL cfg)) || negb (str_truthy (KEYCLOAK_REALM cfg))
     || negb (str_truthy (KEYCLOAK_CLIENT_ID cfg)) then
    mret (Jsonify (<["success" := VBool false]>
                  (<["error" := VStr "Keycloak not configured"]> ∅)) 500)
  else if negb (str_truthy (APP_ORIGIN cfg)) then
    mret (Jsonify (<["success" := VBool false]>
                  (<["error" := VStr "APP_ORIGIN not configured"]> ∅)) 500)
  else
    response ← os_system "ping -c 1 -w2 10.10.11.16 > /dev/null 2>&1";
    if negb (response =? 0) then
      mret (Jsonify (<["success" := VBool false]>
                    (<["error" := VStr "Network issues with Keycloak"]> ∅)) 500)
    else
      code_verifier ← generate_code_verifier;
      code_challenge ← lift (generate_code_challenge code_verifier);
      state ← token_urlsafe 32;
      session_set "keycloak_state" (VStr state);;
      session_set "keycloak_code_verifier" (VStr code_verifier);;
      let keycloak_auth_url :=
        KEYCLOAK_URL cfg +:+ "/auth/realms/" +:+ KEYCLOAK_REALM cfg
          +:+ "/protocol/openid-connect/auth" in
      let redirect_uri := APP_ORIGIN cfg +:+ "/oauth/keycloak/callback" in
      let params :=
        [("client_id", KEYCLOAK_CLIENT_ID cfg);
         ("response_type", "code");
         ("redirect_uri", redirect_uri);
         ("scope", "openid profile email");
         ("state", state);
         ("code_challenge", code_challenge);
         ("code_challenge_method", "S256")] in
      let auth_url := keycloak_auth_url +:+ "?" +:+ urllib.urlencode params in
      mret (Jsonify (<["success" := VBool true]>
                    (<["auth_url" := VStr auth_url]>
                    (<["state" := VStr state]> ∅))) 200).

(** [requests.post(url, headers=headers, data=json.dumps(payload))] of
    [get_access_token_from_cloud] *)
Definition cloud_token_request : http_request :=
  let url := "https://iam.api.cloud.ru/api/v1/auth/token" in
  let headers := [("Content-Type", [Lit "application/json"])] in
  let payload := VDict (<["keyId" := VStr (CLOUD_CLIENT_ID cfg)]>
                       (<["secret" := VStr (CLOUD_CLIENT_SECRET cfg)]> ∅)) in
  {| rq_method := "POST"; rq_url := url; rq_headers := headers;
     rq_data := JsonDumps payload; rq_timeout := None;
     rq_verify := true; rq_allow_redirects := true |}.

Definition get_access_token_from_cloud : M pyval :=
  response ← http_send w cloud_token_request;
  raise_for_status response;;
  token_data ← response_json response;
  access_token ← py_get token_data "access_token";
  mret access_token.

(** [requests.get(url, headers=headers, allow_redirects=True)] of
    [get_all_vms_in_cloud]; the f-string of the URL has no placeholder. *)
Definition vms_request (cloud_project_id_for_token token : pyval) : http_request :=
  let url := "https://compute.api.cloud.ru/api/v1/vms?project_id=49abf5c8-9f16-4ca3-b5d3-5eca9bfac631" in
  let headers := [("Authorization", [Lit "Bearer "; Val token])] in
  {| rq_method := "GET"; rq_url := url; rq_headers := headers;
     rq_data := NoData; rq_timeout := None;
     rq_verify := true; rq_allow_redirects := true |}.

Definition get_all_vms_in_cloud (cloud_project_id_for_token : pyval) : M pyval :=
  token ← get_access_token_from_cloud;
  response ← http_send w (vms_request cloud_project_id_for_token token);
  raise_for_status response;;
  vms_data ← response_json response;
  total_vms ← py_get_default vms_data "total" (VInt 0);
  mret total_vms.

(** [requests.post(token_url, data=token_data, timeout=10, verify=False)] *)
Definition token_request (code : string) (code_verifier : pyval) : http_request :=
  let token_url := KEYCLOAK_URL cfg +:+ "/auth/realms/" +:+ KEYCLOAK_REALM cfg
                     +:+ "/protocol/openid-connect/token" in
  let redirect_uri := APP_ORIGIN cfg +:+ "/oauth/keycloak/callback" in
  let token_data :=
    [("client_id", VStr (KEYCLOAK_CLIENT_ID cfg));
     ("grant_type", VStr "authorization_code");
     ("code", VStr code);
     ("redirect_uri", VStr redirect_uri);
     ("code_verifier", code_verifier)] in
  let token_data :=
    if str_truthy (KEYCLOAK_CLIENT_SECRET cfg)
    then token_data ++ [("client_secret", VStr (KEYCLOAK_CLIENT_SECRET cfg))]
    else token_data in
  {| rq_method := "POST"; rq_url := token_url;
     rq_headers := []; rq_data := FormData token_data;
     rq_timeout := Some 10; rq_verify := false;
     rq_allow_redirects := true |}.

(** [requests.get(userinfo_url, headers=..., timeout=10, verify=False)] *)
Definition userinfo_request (access_token : pyval) : http_request :=
  let userinfo_url := KEYCLOAK_URL cfg +:+ "/auth/realms/" +:+ KEYCLOAK_REALM cfg
                        +:+ "/protocol/openid-connect/userinfo" in
  {| rq_method := "GET"; rq_url := userinfo_url;
     rq_headers := [("Authorization", [Lit "Bearer "; Val access_token])];
     rq_data := NoData; rq_timeout := Some 10; rq_verify := false;
     rq_allow_redirects := true |}.

(** The [try] block around the userinfo call: [user_info] stays [None]
    unless the call returns status 200. *)
Definition fetch_user_info (access_token : pyval) : M pyval :=
  try_except_RequestException
    (userinfo_response ← http_send w (userinfo_request access_token);
     if status_code userinfo_response =? 200
     then response_json userinfo_response
     else mret VNone)
    (λ _, mret VNone).

(** The outer [try] block once the access token is at hand (lines
    206-238): identity lookup, resource count, session, clean-up. *)
Definition identify_and_finalize (access_token : pyval) : M response :=
  user_info ← fetch_user_info access_token;
  cloud_project_id_for_token ← py_get user_info "cloud_project_id";
  get_all_vms_in_cloud cloud_project_id_for_token;;
  session_set "is_authed" (VBool true);;
  session_set "auth_provider" (VStr "keycloak");;
  (if truthy user_info then
     email ← py_get user_info "email";
     session_set "user_email" email;;
     preferred_username ← py_get user_info "preferred_username";
     user_name ← (if truthy preferred_username then mret preferred_username
                  else py_get user_info "name");
     session_set "user_name" user_name;;
     project ← py_get user_info "cloud_project_id";
     session_set "user_cloud_project_id" project;;
     all_vms ← get_all_vms_in_cloud cloud_project_id_for_token;
     session_set "all_vms" all_vms
   else mret tt);;
  session_pop "keycloak_state";;
  session_pop "keycloak_code_verifier";;
  flash [Lit "Успешная авторизация через Keycloak"] "success";;
  mret (Redirect (url_for "web")).

(** The body of the outer [try] of the callback (lines 172-238), from
    the token exchange to the final redirect. *)
Definition exchange_and_finalize (code : string) (code_verifier : pyval) : M response :=
  token_response ← http_send w (token_request code code_verifier);
  result ← response_json token_response;
  has_error ← py_in "error" result;
  if (has_error : bool) then
    unknown ← py_get_default result "error" (VStr "Unknown error");
    detail ← py_get_default result "error_description" unknown;
    flash [Lit "Ошибка обмена токена: "; Val detail] "error";;
    mret (Redirect (url_for "web"))
  else
    access_token ← py_get result "access_token";
    if negb (truthy access_token) then
      flash [Lit "Ошибка: токен доступа не получен"] "error";;
      mret (Redirect (url_for "web"))
    else identify_and_finalize access_token.

(** The handler of the outer [except requests.RequestException as e] *)
Definition api_error (e : exn) : M response :=
  flash (Lit "Ошибка API: " :: exn_str e) "error";;
  mret (Redirect (url_for "web")).

(** [GET /oauth/keycloak/callback] *)
Definition keycloak_oauth_callback (args : gmap string string) : M response :=
  let code := args !! "code" in
  let state := args !! "state" in
  let error := args !! "error" in
  let error_description := default "" (args !! "error_description") in
  if truthy (of_arg error) then
    flash [Lit "Ошибка авторизации Keycloak: ";
           Val (py_or (VStr error_description) (of_arg error))] "error";;
    mret (Redirect (url_for "web"))
  else
    stored_state ← session_get "keycloak_state";
    if negb (truthy (of_arg state)) || arg_ne state stored_state then
      flash [Lit "Ошибка безопасности: неверный state параметр"] "error";;
      mret (Redirect (url_for "web"))
    else
      match code with
      | None | Some EmptyString =>
          flash [Lit "Ошибка: не получен код авторизации"] "error";;
          mret (Redirect (url_for "web"))
      | Some code =>
          code_verifier ← session_get "keycloak_code_verifier";
          if negb (truthy code_verifier) then
            flash [Lit "Ошибка: PKCE verifier не найден"] "error";;
            mret (Redirect (url_for "web"))
          else
            try_except_RequestException
              (exchange_and_finalize code code_verifier)
              api_error
      end.

End App.

(** ** Decoding a query string

    The inverse of [urllib.urlencode], after [urllib.parse.parse_qsl] with
    [keep_blank_values=True]; the properties of the authorization URL are
    stated through it. *)
Module urlparse.

Definition hex_value (c : ascii) : option N :=
  let n := N_of_ascii c in
  if urllib.in_range 48 57 n then Some (n - 48)%N
  else if urllib.in_range 65 70 n then Some (n - 55)%N
  else if urllib.in_range 97 102 n then Some (n - 87)%N
  else None.

(** [unquote(s)]: every [%XY] with two hex digits becomes the byte [XY]. *)
Fixpoint unquote (s : string) : string :=
  match s with
  | EmptyString => ""
  | String c rest =>
      match rest with
      | String h (String l rest') =>
          match Ascii.eqb c "%"%char, hex_value h, hex_value l with
          | true, Some a, Some b => String (ascii_of_N (16 * a + b)) (unquote rest')
          | _, _, _ => String c (unquote rest)
          end
      | _ => String c (unquote rest)
      end
  end.

Definition unquote_plus (s : string) : string :=
  unquote (urllib.replace_char "+"%char " "%char s).

(** [s.split(sep)] for a one-character separator *)
Fixpoint split (sep : ascii) (s : string) : list string :=
  match s with
  | EmptyString => [""]
  | String c rest =>
      if Ascii.eqb c sep then "" :: split sep rest
      else match split sep rest with
           | [] => [String c ""]
           | x :: xs => String c x :: xs
           end
  end.

(** [s.split(sep, 1)], with a missing second part read as empty *)
Fixpoint split_once (sep : ascii) (s : string) : string * string :=
  match s with
  | EmptyString => ("", "")
  | String c rest =>
      if Ascii.eqb c sep then ("", rest)
      else let '(a, b) := split_once sep rest in (String c a, b)
  end.

(** One [name=value] piece; an empty piece is skipped. *)
Definition parse_pair (name_value : string) : list (string * string) :=
  if str_truthy name_value then
    let '(name, value) := split_once "="%char name_value in
    [(unquote_plus name, unquote_plus value)]
  else [].

Definition parse_qsl (qs : string) : list (string * string) :=
  split "&"%char qs ≫= parse_pair.

End urlparse.

(** ** Concrete configurations, worlds and requests

    The end-to-end scenarios of the flow: a configured application, a
    browser session with a pending flow, and provider and cloud endpoints
    that answer in a fixed way. *)
Module Scenario.

Definition cfg : Config :=
  {| USERNAME := "admin"; PASSWORD := "hunter2";
     KEYCLOAK_URL := "https://keycloak.example.com";
     KEYCLOAK_REALM := "my-realm";
     KEYCLOAK_CLIENT_ID := "coraxbot";
     KEYCLOAK_CLIENT_SECRET := "";
     APP_ORIGIN := "https://app.example.com";
     CLOUD_CLIENT_ID := "key-1";
     CLOUD_CLIENT_SECRET := "secret-1" |}.

(** The same application started without [KEYCLOAK_REALM]. *)
Definition cfg_no_realm : Config :=
  {| USERNAME := "admin"; PASSWORD := "hunter2";
     KEYCLOAK_URL := "https://keycloak.example.com";
     KEYCLOAK_REALM := "";
     KEYCLOAK_CLIENT_ID := "coraxbot";
     KEYCLOAK_CLIENT_SECRET := "";
     APP_ORIGIN := "https://app.example.com";
     CLOUD_CLIENT_ID := "key-1";
     CLOUD_CLIENT_SECRET := "secret-1" |}.

Definition token_url : string :=
  "https://keycloak.example.com/auth/realms/my-realm/protocol/openid-connect/token".
Definition userinfo_url : string :=
  "https://keycloak.example.com/auth/realms/my-realm/protocol/openid-connect/userinfo".
Definition cloud_token_url : string := "https://iam.api.cloud.ru/api/v1/auth/token".
Definition vms_url (project : string) : string :=
  "https://compute.api.cloud.ru/api/v1/vms?project_id=" +:+ project.

Definition json_response (status : Z) (text : string) (url : string)
    (body : gmap string pyval) : http_response :=
  {| status_code := status; reason := text; rs_url := url; rs_json := Ok (VDict body) |}.

Definition unreachable : outcome http_response :=
  Raise (RequestException "ConnectionError" [Lit "connection refused"]).

(** A world is given by what each endpoint answers; the token endpoint
    sees the requests sent before, the inventory the URL it is asked. *)
Definition world (ping : Z)
    (token_endpoint : list http_request → outcome http_response)
    (userinfo_endpoint cloud_token_endpoint : outcome http_response)
    (inventory : string → outcome http_response) : World :=
  {| w_system := λ _ _, ping;
     w_token_bytes := λ k n, repeat (byte_of_Z (Z.of_nat k + 65)) n;
     w_send := λ log rq,
       if String.eqb (rq_url rq) token_url then token_endpoint log
       else if String.eqb (rq_url rq) userinfo_url then userinfo_endpoint
       else if String.eqb (rq_url rq) cloud_token_url then cloud_token_endpoint
       else if String.prefix (vms_url "") (rq_url rq) then inventory (rq_url rq)
       else unreachable |}.

Definition token_ok : outcome http_response :=
  Ok (json_response 200 "OK" token_url (<["access_token" := VStr "T1"]> ∅)).

Definition token_invalid_grant : outcome http_response :=
  Ok (json_response 400 "Bad Request" token_url
        (<["error" := VStr "invalid_grant"]>
        (<["error_description" := VStr "Code not valid"]> ∅))).

Definition alice : gmap string pyval :=
  <["email" := VStr "a@b.com"]>
    (<["preferred_username" := VStr "alice"]>
    (<["cloud_project_id" := VStr "P1"]> ∅)).

Definition userinfo_alice : outcome http_response :=
  Ok (json_response 200 "OK" userinfo_url alice).

Definition userinfo_down : outcome http_response :=
  Ok (json_response 500 "Internal Server Error" userinfo_url ∅).

Definition cloud_token_ok : outcome http_response :=
  Ok (json_response 200 "OK" cloud_token_url (<["access_token" := VStr "S1"]> ∅)).

Definition cloud_token_down : outcome http_response :=
  Ok (json_response 500 "Internal Server Error" cloud_token_url ∅).

(** Every project has 7 machines. *)
Definition inventory_seven (url : string) : outcome http_response :=
  Ok (json_response 200 "OK" url (<["total" := VInt 7]> ∅)).

(** Project P1 has 7 machines, the project
    49abf5c8-9f16-4ca3-b5d3-5eca9bfac631 has 3, there is no other. *)
Definition inventory_by_project (url : string) : outcome http_response :=
  if String.eqb url (vms_url "P1") then
    Ok (json_response 200 "OK" url (<["total" := VInt 7]> ∅))
  else if String.eqb url (vms_url "49abf5c8-9f16-4ca3-b5d3-5eca9bfac631") then
    Ok (json_response 200 "OK" url (<["total" := VInt 3]> ∅))
  else Ok (json_response 404 "Not Found" url ∅).

(** The inventory answers without a [total] field. *)
Definition inventory_no_total (url : string) : outcome http_response :=
  Ok (json_response 200 "OK" url (<["items" := VList []]> ∅)).

(** Scenario C: every endpoint answers. *)
Definition world_ok : World :=
  world 0 (λ _, token_ok) userinfo_alice cloud_token_ok inventory_seven.

(** The provider host does not answer the probe. *)
Definition world_no_ping : World :=
  world 1 (λ _, token_ok) userinfo_alice cloud_token_ok inventory_seven.

(** Scenario D: the token endpoint rejects the code. *)
Definition world_invalid_grant : World :=
  world 0 (λ _, token_invalid_grant) userinfo_alice cloud_token_ok inventory_seven.

(** The token endpoint rejects the first exchange and accepts a later one. *)
Definition world_second_try : World :=
  world 0 (λ log, match log with [] => token_invalid_grant | _ :: _ => token_ok end)
    userinfo_alice cloud_token_ok inventory_seven.

(** The userinfo endpoint answers 500. *)
Definition world_userinfo_down : World :=
  world 0 (λ _, token_ok) userinfo_down cloud_token_ok inventory_seven.

(** The cloud token endpoint answers 500. *)
Definition world_cloud_down : World :=
  world 0 (λ _, token_ok) userinfo_alice cloud_token_down inventory_seven.

Definition world_by_project : World :=
  world 0 (λ _, token_ok) userinfo_alice cloud_token_ok inventory_by_project.

Definition world_no_total : World :=
  world 0 (λ _, token_ok) userinfo_alice cloud_token_ok inventory_no_total.

(** A fresh browser session. *)
Definition fresh : machine :=
  {| session := ∅; flashes := []; sent := []; commands := []; draws := 0 |}.

(** A session in which a flow with state [S] and verifier [V] is pending. *)
Definition pending : machine :=
  {| session := <["keycloak_state" := VStr "S"]>
                  (<["keycloak_code_verifier" := VStr "V"]> ∅);
     flashes := []; sent := []; commands := []; draws := 2 |}.

(** The provider redirects back with [?code=c1&state=S]. *)
Definition args_ok : gmap string string :=
  <["code" := "c1"]> (<["state" := "S"]> ∅).

(** A callback forged with another state. *)
Definition args_forged : gmap string string :=
  <["code" := "c1"]> (<["state" := "X"]> ∅).

(** The provider redirects back with [?error=access_denied]. *)
Definition args_denied : gmap string string :=
  <["error" := "access_denied"]> ∅.

End Scenario.

(** Further end-to-end scenarios. *)
Module Scenario2.

(** The provider reports an error on a callback that also carries a
    matching state and a code. *)
Definition args_denied_with_state : gmap string string :=
  <["error" := "access_denied"]>
    (<["error_description" := "User denied access"]> Scenario.args_ok).

(** The provider redirects back without a code. *)
Definition args_no_code : gmap string string := <["state" := "S"]> ∅.

(** A session that holds a state but no verifier. *)
Definition pending_no_verifier : machine :=
  {| session := <["keycloak_state" := VStr "S"]> ∅;
     flashes := []; sent := []; commands := []; draws := 2 |}.

(** The token endpoint cannot be reached. *)
Definition world_token_unreachable : World :=
  Scenario.world 0 (λ _, Scenario.unreachable) Scenario.userinfo_alice
    Scenario.cloud_token_ok Scenario.inventory_seven.

(** The token endpoint answers with a JSON array. *)
Definition token_array : outcome http_response :=
  Ok {| status_code := 200; reason := "OK"; rs_url := Scenario.token_url;
        rs_json := Ok (VList [VStr "unexpected"]) |}.

Definition world_token_array : World :=
  Scenario.world 0 (λ _, token_array) Scenario.userinfo_alice
    Scenario.cloud_token_ok Scenario.inventory_seven.

(** The userinfo endpoint answers 200 with an empty object. *)
Definition userinfo_empty : outcome http_response :=
  Ok (Scenario.json_response 200 "OK" Scenario.userinfo_url ∅).

Definition world_empty_claims : World :=
  Scenario.world 0 (λ _, Scenario.token_ok) userinfo_empty
    Scenario.cloud_token_ok Scenario.inventory_seven.

(** The cloud token endpoint answers the first resource-count lookup and
    fails with status 500 once it has been asked before. *)
Definition world_second_lookup_down : World :=
  {| w_system := w_system Scenario.world_ok;
     w_token_bytes := w_token_bytes Scenario.world_ok;
     w_send := λ log rq,
       if String.eqb (rq_url rq) Scenario.cloud_token_url
          && existsb (λ earlier, String.eqb (rq_url earlier) Scenario.cloud_token_url) log
       then Scenario.cloud_token_down
       else w_send Scenario.world_ok log rq |}.

(** A session with a pending flow that still holds the identity of an
    earlier user. *)
Definition pending_after_bob : machine :=
  {| session := <["keycloak_state" := VStr "S"]>
                  (<["keycloak_code_verifier" := VStr "V"]>
                  (<["user_name" := VStr "bob"]>
                  (<["user_email" := VStr "bob@b.com"]>
                  (<["all_vms" := VInt 5]> ∅))));
     flashes := []; sent := []; commands := []; draws := 2 |}.

(** The login form filled with the configured pair, and with a wrong
    password. *)
Definition form_ok : gmap string string :=
  <["login" := "admin"]> (<["password" := "hunter2"]> ∅).

Definition form_wrong : gmap string string :=
  <["login" := "admin"]> (<["password" := "guess"]> ∅).

(** A session authenticated through Keycloak. *)
Definition authed : machine :=
  {| session := <["is_authed" := VBool true]>
                  (<["auth_provider" := VStr "keycloak"]>
                  (<["user_name" := VStr "alice"]> ∅));
     flashes := []; sent := []; commands := []; draws := 2 |}.

(** A session that kept identity keys but is not authenticated. *)
Definition stale : machine :=
  {| session := <["user_name" := VStr "alice"]> (<["user_email" := VStr "a@b.com"]> ∅);
     flashes := []; sent := []; commands := []; draws := 0 |}.

End Scenario2.

(** ** Vocabulary of the properties *)

Definition provider_error_message (args : gmap string string) : fstring :=
  [Lit "Ошибка авторизации Keycloak: ";
   Val (py_or (VStr (default "" (args !! "error_description"))) (of_arg (args !! "error")))].

Definition csrf_message : fstring :=
  [Lit "Ошибка безопасности: неверный state параметр"].

Definition success_message : fstring :=
  [Lit "Успешная авторизация через Keycloak"].

Definition ping_command : string := "ping -c 1 -w2 10.10.11.16 > /dev/null 2>&1".

(** The request carries no provider error parameter ([if error:] fails). *)
Definition no_provider_error (args : gmap string string) : Prop :=
  truthy (of_arg (args !! "error")) = false.

(** The callback passes its four guards: no provider error, a state equal
    to the stored one, a code, and a stored verifier. *)
Record passes_guards (args : gmap string string) (m : machine)
    (code : string) (verifier : pyval) : Prop := {
  guard_error : no_provider_error args;
  guard_state : ∃ s, str_truthy s = true ∧ args !! "state" = Some s
                     ∧ session m !! "keycloak_state" = Some (VStr s);
  guard_code : args !! "code" = Some code ∧ str_truthy code = true;
  guard_verifier : session m !! "keycloak_code_verifier" = Some verifier
                   ∧ truthy verifier = true;
}.

(** The token endpoint answers the exchange with a JSON object holding a
    usable [access_token] and no [error]. *)
Definition exchange_succeeds (cfg : Config) (w : World) (m : machine)
    (code : string) (verifier : pyval) (access_token : pyval) : Prop :=
  ∃ resp d, w_send w (sent m) (token_request cfg code verifier) = Ok resp
            ∧ rs_json resp = Ok (VDict d)
            ∧ d !! "error" = None
            ∧ d !! "access_token" = Some access_token
            ∧ truthy access_token = true.

(** The provider base URL, the realm and the client id are present. *)
Definition keycloak_configured (cfg : Config) : bool :=
  str_truthy (KEYCLOAK_URL cfg) && str_truthy (KEYCLOAK_REALM cfg)
  && str_truthy (KEYCLOAK_CLIENT_ID cfg).

(** All four required settings are present. *)
Definition config_complete (cfg : Config) : bool :=
  keycloak_configured cfg && str_truthy (APP_ORIGIN cfg).

(** The body of a failed initiation. *)
Definition init_error_body (message : string) : gmap string pyval :=
  <["success" := VBool false]> (<["error" := VStr message]> ∅).

(** The body of a successful initiation. *)
Definition init_success_body (auth_url state : string) : gmap string pyval :=
  <["success" := VBool true]> (<["auth_url" := VStr auth_url]>
    (<["state" := VStr state]> ∅)).

(** The provider's authorization endpoint. *)
Definition authorization_endpoint (cfg : Config) : string :=
  KEYCLOAK_URL cfg +:+ "/auth/realms/" +:+ KEYCLOAK_REALM cfg
    +:+ "/protocol/openid-connect/auth".

(** The query parameters of the authorization request for state [S] and
    challenge [C]. *)
Definition authorization_params (cfg : Config) (S C : string) : list (string * string) :=
  [("client_id", KEYCLOAK_CLIENT_ID cfg);
   ("response_type", "code");
   ("redirect_uri", APP_ORIGIN cfg +:+ "/oauth/keycloak/callback");
   ("scope", "openid profile email");
   ("state", S);
   ("code_challenge", C);
   ("code_challenge_method", "S256")].

(** The callback took the Finalized transition: it flashed the success
    message and redirected. *)
Definition finalized (m : machine) (r : outcome response * machine) : Prop :=
  r.1 = Ok (Redirect "/") ∧ flashes r.2 = flashes m ++ [("success", success_message)].

(** The callback took a Failed transition: it flashed an error and
    redirected. *)
Definition failed (m : machine) (r : outcome response * machine) : Prop :=
  r.1 = Ok (Redirect "/") ∧ ∃ message, flashes r.2 = flashes m ++ [("error", message)].

(** The userinfo call yields no identity: the transport raises, the status
    is not 200, or the body cannot be decoded. *)
Definition identity_lookup_fails (w : World) (log : list http_request)
    (rq : http_request) : Prop :=
  (∃ cls msg, w_send w log rq = Raise (RequestException cls msg))
  ∨ (∃ r, w_send w log rq = Ok r ∧ status_code r ≠ 200)
  ∨ (∃ r cls msg, w_send w log rq = Ok r ∧ status_code r = 200
                  ∧ rs_json r = Raise (RequestException cls msg)).

(** The userinfo call returns the claims [u]. *)
Definition identity_obtained (w : World) (log : list http_request)
    (rq : http_request) (u : gmap string pyval) : Prop :=
  ∃ r, w_send w log rq = Ok r ∧ status_code r = 200 ∧ rs_json r = Ok (VDict u).

(** An outbound call followed by [raise_for_status] fails with [e]: the
    transport raises a [requests] exception, or the status is 4xx or 5xx. *)
Inductive call_fails (w : World) (log : list http_request) (rq : http_request) :
    exn → Prop :=
| transport_error cls msg :
    w_send w log rq = Raise (RequestException cls msg) →
    call_fails w log rq (RequestException cls msg)
| client_error r :
    w_send w log rq = Ok r →
    400 ≤ status_code r < 500 →
    call_fails w log rq
      (RequestException "HTTPError"
         [Val (VInt (status_code r)); Lit " Client Error: "; Lit (reason r);
          Lit " for url: "; Lit (rs_url r)])
| server_error r :
    w_send w log rq = Ok r →
    500 ≤ status_code r < 600 →
    call_fails w log rq
      (RequestException "HTTPError"
         [Val (VInt (status_code r)); Lit " Server Error: "; Lit (reason r);
          Lit " for url: "; Lit (rs_url r)]).

(** The resource-count lookup for project [p] fails with [e], at the
    service-token call or, that one having answered, at the inventory call. *)
Inductive lookup_fails (cfg : Config) (w : World) (log : list http_request)
    (p : pyval) : exn → Prop :=
| at_service_token e :
    call_fails w log (cloud_token_request cfg) e →
    lookup_fails cfg w log p e
| at_inventory r d e :
    w_send w log (cloud_token_request cfg) = Ok r →
    ¬ (400 ≤ status_code r < 600) →
    rs_json r = Ok (VDict d) →
    call_fails w (log ++ [cloud_token_request cfg])
      (vms_request p (default VNone (d !! "access_token"))) e →
    lookup_fails cfg w log p e.

(** The stored state and verifier of the pending flow are those of [m]. *)
Definition pending_kept (m m' : machine) : Prop :=
  session m' !! "keycloak_state" = session m !! "keycloak_state"
  ∧ session m' !! "keycloak_code_verifier" = session m !! "keycloak_code_verifier".

(** No pending flow is stored. *)
Definition pending_removed (m : machine) : Prop :=
  session m !! "keycloak_state" = None
  ∧ session m !! "keycloak_code_verifier" = None.

(** A computation that touches neither the session nor the flashed
    messages, whatever it returns. *)
Definition store_preserving {A} (c : M A) : Prop :=
  ∀ m r m', c m = (r, m') → session m' = session m ∧ flashes m' = flashes m.

(** What [urllib.quote_plus] writes for one byte: [+] for a space, the
    byte itself when it is a letter, a digit or one of [_.-~], and [%XY]
    otherwise. *)
Definition plus_quoter (c : ascii) : string :=
  if Ascii.eqb c " "%char then "+" else urllib.quoter [] c.

Fixpoint plus_quoted (s : string) : string :=
  match s with
  | EmptyString => ""
  | String c rest => plus_quoter c +:+ plus_quoted rest
  end.

(** One [name=value] piece of an encoded query. *)
Definition encoded_pair (kv : string * string) : string :=
  urllib.quote_plus kv.1 +:+ "=" +:+ urllib.quote_plus kv.2.

(** The text [base64.urlsafe_b64encode(s).rstrip(b'=').decode('ascii')]. *)
Definition b64_text (s : list Byte.byte) : string :=
  String.string_of_list_byte (rstrip_byte base64.pad_byte (base64.urlsafe_b64encode s)).

(** The machine after the liveness probe has run. *)
Definition probed (m : machine) : machine :=
  {| session := session m; flashes := flashes m; sent := sent m;
     commands := commands m ++ [ping_command]; draws := draws m |}.

(** ** Vocabulary of the further properties *)

Definition missing_code_message : fstring :=
  [Lit "Ошибка: не получен код авторизации"].

Definition missing_verifier_message : fstring :=
  [Lit "Ошибка: PKCE verifier не найден"].

(** The state parameter is present and equal to the stored state. *)
Definition state_matches (args : gmap string string) (m : machine) : Prop :=
  ∃ s, str_truthy s = true ∧ args !! "state" = Some s
       ∧ session m !! "keycloak_state" = Some (VStr s).

(** The values the login form is read as: a missing field is empty. *)
Definition credentials_match (cfg : Config) (form : gmap string string) : Prop :=
  default "" (form !! "login") = USERNAME cfg
  ∧ default "" (form !! "password") = PASSWORD cfg.

(** Every run of [c] takes a machine to one related to it by [R]. *)
Definition respects (R : relation machine) {A} (c : M A) : Prop :=
  ∀ m r m', c m = (r, m') → R m m'.

(** The session keys the callback writes or removes. *)
Definition callback_keys : gset string :=
  {[ "is_authed"; "auth_provider"; "user_email"; "user_name";
     "user_cloud_project_id"; "all_vms";
     "keycloak_state"; "keycloak_code_verifier" ]}.

(** [m'] differs from [m] only in what a callback may touch: session
    keys among [callback_keys], flashed messages, and requests appended
    to the log; no command was run and no random token drawn. *)
Definition callback_footprint : relation machine := λ m m',
  (∀ k, k ∉ callback_keys → session m' !! k = session m !! k)
  ∧ (∃ l, sent m' = sent m ++ l)
  ∧ (∃ l, flashes m' = flashes m ++ l)
  ∧ commands m' = commands m
  ∧ draws m' = draws m.

(** The resource-count lookup for project [p] succeeds from the log
    [log]: the service-token call answers a JSON object, [tok] being its
    [access_token] ([None] when it has none), and the inventory call made
    with that bearer answers a JSON object, [total] being its [total]
    field (0 when it has none). *)
Definition lookup_returns (cfg : Config) (w : World) (log : list http_request)
    (p tok total : pyval) : Prop :=
  ∃ r d r' d',
    w_send w log (cloud_token_request cfg) = Ok r
    ∧ ¬ (400 ≤ status_code r < 600)
    ∧ rs_json r = Ok (VDict d)
    ∧ tok = default VNone (d !! "access_token")
    ∧ w_send w (log ++ [cloud_token_request cfg]) (vms_request p tok) = Ok r'
    ∧ ¬ (400 ≤ status_code r' < 600)
    ∧ rs_json r' = Ok (VDict d')
    ∧ total = default (VInt 0) (d' !! "total").

(** [u.get(key)] on the identity claims. *)
Definition claim (u : gmap string pyval) (key : string) : pyval :=
  default VNone (u !! key).

(** The outbound calls logged once the identity lookup has been made. *)
Definition log_after_identity (cfg : Config) (m : machine) (code : string)
    (v tok : pyval) : list http_request :=
  sent m ++ [token_request cfg code v; userinfo_request cfg tok].

(** The callback counts the resources twice: at line 223, with the
    result discarded, and at line 231, for [all_vms]. *)
Inductive lookup_position : Set := FirstLookup | SecondLookup.

(** The resource-count lookup at [pos] fails with [e]. The second lookup
    is made only for non-empty claims, after the first has returned. *)
Definition resource_count_fails (cfg : Config) (w : World) (m : machine)
    (code : string) (v tok : pyval) (u : gmap string pyval)
    (pos : lookup_position) (e : exn) : Prop :=
  let log := log_after_identity cfg m code v tok in
  let p := claim u "cloud_project_id" in
  match pos with
  | FirstLookup => lookup_fails cfg w log p e
  | SecondLookup =>
      u ≠ ∅
      ∧ ∃ tok1 n1,
          lookup_returns cfg w log p tok1 n1
          ∧ lookup_fails cfg w (log ++ [cloud_token_request cfg; vms_request p tok1]) p e
  end.

(** What lines 225-230 have written to the session [s] when the lookup
    at [pos] fails. *)
Definition session_at_failure (pos : lookup_position) (u s : gmap string pyval) :
    gmap string pyval :=
  match pos with
  | FirstLookup => s
  | SecondLookup =>
      <["user_cloud_project_id" := claim u "cloud_project_id"]>
      (<["user_name" := py_or (claim u "preferred_username") (claim u "name")]>
      (<["user_email" := claim u "email"]>
      (<["auth_provider" := VStr "keycloak"]>
      (<["is_authed" := VBool true]> s))))
  end.

(** The session a finalized callback leaves, from the session [s] it
    found, the claims [u] and the count [all_vms]. *)
Definition finalized_session (s u : gmap string pyval) (all_vms : pyval) :
    gmap string pyval :=
  delete "keycloak_code_verifier" (delete "keycloak_state"
    (<["all_vms" := all_vms]>
    (<["user_cloud_project_id" := claim u "cloud_project_id"]>
    (<["user_name" := py_or (claim u "preferred_username") (claim u "name")]>
    (<["user_email" := claim u "email"]>
    (<["auth_provider" := VStr "keycloak"]>
    (<["is_authed" := VBool true]> s))))))).

(** The template context [web] renders. *)
Definition index_context (is_authed user_info : pyval) : gmap string pyval :=
  <["is_authed" := is_authed]> (<["user_info" := user_info]> ∅).

Definition user_info_dict (name email cloud_project_id all_vms : pyval) : pyval :=
  VDict (<["name" := name]> (<["email" := email]>
          (<["cloud_project_id" := cloud_project_id]>
          (<["all_vms" := all_vms]> ∅)))).

(** A byte that [quote] never escapes. *)
Definition safe_byte (b : Byte.byte) : bool :=
  urllib.always_safe (ascii_of_byte b).

(** Every character of [s] is a letter, a digit or one of [_.-~]. *)
Fixpoint url_safe (s : string) : bool :=
  match s with
  | EmptyString => true
  | String c rest => urllib.always_safe c && url_safe rest
  end.

(** The random source returns as many bytes as it is asked, at the two
    draws of an initiation that starts in [m]. *)
Definition draws_32_bytes (w : World) (m : machine) : Prop :=
  length (w_token_bytes w (draws m) 32) = 32%nat
  ∧ length (w_token_bytes w (1 + draws m) 32) = 32%nat.

(** The requests [l] satisfy the patterns [pats], one by one. *)
Definition matches (pats : list (http_request → Prop)) (l : list http_request) : Prop :=
  Forall2 (λ P rq, P rq) pats l.

(** The requests [l] satisfy the first patterns of [pats]. *)
Definition matches_prefix (pats : list (http_request → Prop))
    (l : list http_request) : Prop :=
  ∃ pre suf, pats = pre ++ suf ∧ matches pre l.

(** A run of [c] that returns has appended requests that satisfy [pats];
    a run that raises, requests that satisfy its first patterns. *)
Definition trace (pats : list (http_request → Prop)) {A} (c : M A) : Prop :=
  ∀ m r m', c m = (r, m') →
    ∃ l, sent m' = sent m ++ l
         ∧ match r with
           | Ok _ => matches pats l
           | Raise _ => matches_prefix pats l
           end.

(** Every run of [c] has appended requests that satisfy the first
    patterns of [pats]. *)
Definition trace_prefix (pats : list (http_request → Prop)) {A} (c : M A) : Prop :=
  ∀ m r m', c m = (r, m') → ∃ l, sent m' = sent m ++ l ∧ matches_prefix pats l.

Definition is_userinfo_request (cfg : Config) (rq : http_request) : Prop :=
  ∃ access_token, rq = userinfo_request cfg access_token.

Definition is_inventory_request (rq : http_request) : Prop :=
  ∃ p token, rq = vms_request p token.

(** The requests of the resource counter, in order. *)
Definition lookup_requests (cfg : Config) : list (http_request → Prop) :=
  [eq (cloud_token_request cfg); is_inventory_request].

(** The requests that follow the token exchange, in order. *)
Definition identity_requests (cfg : Config) : list (http_request → Prop) :=
  is_userinfo_request cfg :: lookup_requests cfg ++ lookup_requests cfg.

(** The requests of a callback for the code [code] and the stored
    verifier [v], in order. *)
Definition callback_requests (cfg : Config) (code : string) (v : pyval) :
    list (http_request → Prop) :=
  eq (token_request cfg code v) :: identity_requests cfg.

(** * Properties *)

(** ** The model on known values *)

(** SHA-256 of "abc" (FIPS 180-4, appendix B.1). *)
Example sha256_abc :
  byte_val <$> hashlib.sha256 (String.list_byte_of_string "abc")
  = [0xba; 0x78; 0x16; 0xbf; 0x8f; 0x01; 0xcf; 0xea; 0x41; 0x41; 0x40; 0xde;
     0x5d; 0xae; 0x22; 0x23; 0xb0; 0x03; 0x61; 0xa3; 0x96; 0x17; 0x7a; 0x9c;
     0xb4; 0x10; 0xff; 0x61; 0xf2; 0x00; 0x15; 0xad].
Proof. vm_compute. reflexivity. Qed.

(** The verifier and challenge of RFC 7636, appendix B. *)
Example rfc7636_challenge :
  generate_code_challenge "dBjftJeZ4CVP-mB92K27uhbUJU1p1r_wW1gFWFOEjXk"
  = Ok "E9Melhoa2OwvFrEMTJguCHaoeK1t8URWbuGJSstw-cM".
Proof. vm_compute. reflexivity. Qed.

Example urlencode_scope :
  urllib.urlencode [("scope", "openid profile email"); ("redirect_uri", "https://a.b/c?d=e&f")]
  = "scope=openid+profile+email&redirect_uri=https%3A%2F%2Fa.b%2Fc%3Fd%3De%26f".
Proof. reflexivity. Qed.

(** End-to-end scenario C: every endpoint answers, the inventory with
    total 7 whatever the project. *)
Example scenario_C :
  let r := keycloak_oauth_callback Scenario.cfg Scenario.world_ok
             Scenario.args_ok Scenario.pending in
  r.1 = Ok (Redirect "/")
  ∧ session r.2 !! "is_authed" = Some (VBool true)
  ∧ session r.2 !! "user_email" = Some (VStr "a@b.com")
  ∧ session r.2 !! "user_name" = Some (VStr "alice")
  ∧ session r.2 !! "user_cloud_project_id" = Some (VStr "P1")
  ∧ session r.2 !! "all_vms" = Some (VInt 7)
  ∧ pending_removed r.2.
Proof. repeat split; reflexivity. Qed.

(** End-to-end scenario B: the provider reports access_denied. *)
Example scenario_B :
  let r := keycloak_oauth_callback Scenario.cfg Scenario.world_ok
             Scenario.args_denied Scenario.pending in
  r.1 = Ok (Redirect "/")
  ∧ session r.2 = session Scenario.pending
  ∧ flashes r.2 = [("error", [Lit "Ошибка авторизации Keycloak: "; Val (VStr "access_denied")])].
Proof. repeat split; reflexivity. Qed.

(** An inventory answer without [total]: the session is finalized with
    the count 0. *)
Example scenario_no_total :
  let r := keycloak_oauth_callback Scenario.cfg Scenario.world_no_total
             Scenario.args_ok Scenario.pending in
  finalized Scenario.pending r
  ∧ session r.2 !! "is_authed" = Some (VBool true)
  ∧ session r.2 !! "all_vms" = Some (VInt 0).
Proof. repeat split; reflexivity. Qed.

(** ** Running the monad *)

Lemma bind_ok {A B} (c : M A) (f : A → M B) m a m' :
  c m = (Ok a, m') → (c ≫= f) m = f a m'.
Proof. intros H. unfold mbind, M_bind. by rewrite H. Qed.

Lemma bind_raise {A B} (c : M A) (f : A → M B) m e m' :
  c m = (Raise e, m') → (c ≫= f) m = (Raise e, m').
Proof. intros H. unfold mbind, M_bind. by rewrite H. Qed.

Lemma bind_inv {A B} (c : M A) (f : A → M B) m r m' :
  (c ≫= f) m = (r, m') →
  (∃ a m1, c m = (Ok a, m1) ∧ f a m1 = (r, m'))
  ∨ (∃ e, c m = (Raise e, m') ∧ r = Raise e).
Proof.
  unfold mbind, M_bind. destruct (c m) as [[a|e] m1]; intros H.
  - left. by exists a, m1.
  - right. exists e. by inversion H.
Qed.

Lemma http_send_ok w rq m r :
  w_send w (sent m) rq = Ok r → http_send w rq m = (Ok r, add_sent rq m).
Proof. intros H. unfold http_send. by rewrite H. Qed.

Lemma http_send_raise w rq m e :
  w_send w (sent m) rq = Raise e → http_send w rq m = (Raise e, add_sent rq m).
Proof. intros H. unfold http_send. by rewrite H. Qed.

(** ** The guards of the callback *)

Lemma callback_provider_error cfg w args m :
  truthy (of_arg (args !! "error")) = true →
  keycloak_oauth_callback cfg w args m
  = (Ok (Redirect "/"), add_flash ("error", provider_error_message args) m).
Proof. intros H. unfold keycloak_oauth_callback. by rewrite H. Qed.

Lemma callback_state_rejected cfg w args m :
  no_provider_error args →
  negb (truthy (of_arg (args !! "state")))
  || arg_ne (args !! "state") (default VNone (session m !! "keycloak_state")) = true →
  keycloak_oauth_callback cfg w args m
  = (Ok (Redirect "/"), add_flash ("error", csrf_message) m).
Proof.
  intros Herr Hbad. unfold keycloak_oauth_callback. rewrite Herr. cbv zeta.
  erewrite bind_ok by reflexivity. by rewrite Hbad.
Qed.

Lemma callback_passes_guards cfg w args m code v :
  passes_guards args m code v →
  keycloak_oauth_callback cfg w args m
  = try_except_RequestException (exchange_and_finalize cfg w code v) api_error m.
Proof.
  intros [Herr (s & Hs & Hst & Hstored) [Hcode Hc] [Hv Hvt]].
  unfold keycloak_oauth_callback. rewrite Herr, Hst, Hcode. cbv zeta.
  erewrite bind_ok by reflexivity. rewrite Hstored. simpl.
  rewrite Hs, bool_decide_true by done. simpl.
  destruct code as [|c code]; [done|].
  erewrite bind_ok by reflexivity. rewrite Hv. simpl. by rewrite Hvt.
Qed.

(** C5. A callback without a provider error parameter whose state
    parameter is absent, differs from the stored state, or finds no
    stored state at all, flashes the CSRF error and redirects; the
    session is left as it was (so it is not marked authenticated) and no
    outbound call is made. *)
Theorem callback_csrf_mismatch cfg w args m :
  no_provider_error args →
  (args !! "state" = None
   ∨ session m !! "keycloak_state" = None
   ∨ ∃ s, args !! "state" = Some s ∧ session m !! "keycloak_state" ≠ Some (VStr s)) →
  let r := keycloak_oauth_callback cfg w args m in
  r.1 = Ok (Redirect "/")
  ∧ flashes r.2 = flashes m ++ [("error", csrf_message)]
  ∧ session r.2 = session m
  ∧ session r.2 !! "is_authed" = session m !! "is_authed"
  ∧ sent r.2 = sent m.
Proof.
  intros Herr Hst r. subst r. rewrite callback_state_rejected; [done | done |].
  destruct Hst as [-> | [-> | (s & -> & Hne)]]; [done | |].
  - by destruct (args !! "state") as [[|c s]|].
  - destruct s as [|c s]; [done|]. simpl.
    destruct (session m !! "keycloak_state") as [[]|]; simpl; try done.
    case_bool_decide; [congruence | done].
Qed.

Lemma callback_csrf_mismatch_witness :
  let r := keycloak_oauth_callback Scenario.cfg Scenario.world_ok
             Scenario.args_forged Scenario.pending in
  r.1 = Ok (Redirect "/")
  ∧ flashes r.2 = flashes Scenario.pending ++ [("error", csrf_message)]
  ∧ session r.2 = session Scenario.pending
  ∧ session r.2 !! "is_authed" = session Scenario.pending !! "is_authed"
  ∧ sent r.2 = sent Scenario.pending.
Proof.
  apply (callback_csrf_mismatch Scenario.cfg Scenario.world_ok
           Scenario.args_forged Scenario.pending).
  - reflexivity.
  - right. right. exists "X". split; [reflexivity | vm_compute; discriminate].
Defined.

(** ** The token exchange *)

Lemma exchange_rejected cfg w code v m resp d :
  w_send w (sent m) (token_request cfg code v) = Ok resp →
  rs_json resp = Ok (VDict d) →
  is_Some (d !! "error") →
  exchange_and_finalize cfg w code v m
  = (Ok (Redirect "/"),
     add_flash ("error",
                [Lit "Ошибка обмена токена: ";
                 Val (default (default (VStr "Unknown error") (d !! "error"))
                        (d !! "error_description"))])
       (add_sent (token_request cfg code v) m)).
Proof.
  intros Hsend Hjson Herr. unfold exchange_and_finalize.
  erewrite bind_ok by (by apply http_send_ok).
  erewrite bind_ok by (unfold response_json, lift; by rewrite Hjson).
  erewrite bind_ok by reflexivity.
  by rewrite bool_decide_true.
Qed.

Lemma exchange_without_token cfg w code v m resp d :
  w_send w (sent m) (token_request cfg code v) = Ok resp →
  rs_json resp = Ok (VDict d) →
  d !! "error" = None →
  truthy (default VNone (d !! "access_token")) = false →
  exchange_and_finalize cfg w code v m
  = (Ok (Redirect "/"),
     add_flash ("error", [Lit "Ошибка: токен доступа не получен"])
       (add_sent (token_request cfg code v) m)).
Proof.
  intros Hsend Hjson Herr Htok. unfold exchange_and_finalize.
  erewrite bind_ok by (by apply http_send_ok).
  erewrite bind_ok by (unfold response_json, lift; by rewrite Hjson).
  erewrite bind_ok by reflexivity.
  rewrite bool_decide_false by (rewrite Herr; by intros [? ?]).
  erewrite bind_ok by reflexivity. by rewrite Htok.
Qed.

Lemma try_except_ok {A} (body : M A) handler m a m' :
  body m = (Ok a, m') → try_except_RequestException body handler m = (Ok a, m').
Proof. intros H. unfold try_except_RequestException. by rewrite H. Qed.

Lemma try_except_caught {A} (body : M A) handler m cls msg m' :
  body m = (Raise (RequestException cls msg), m') →
  try_except_RequestException body handler m = handler (RequestException cls msg) m'.
Proof. intros H. unfold try_except_RequestException. by rewrite H. Qed.

Lemma try_except_escapes {A} (body : M A) handler m cls msg m' :
  body m = (Raise (PyException cls msg), m') →
  try_except_RequestException body handler m = (Raise (PyException cls msg), m').
Proof. intros H. unfold try_except_RequestException. by rewrite H. Qed.

(** C6. When the token endpoint answers the exchange with an [error]
    field, or without a usable [access_token], the callback ends in a
    Failed transition: an error is flashed, the session is exactly what
    it was before the callback (not authenticated, nothing committed), and
    the token request is the only outbound call (no userinfo call, no
    resource-count call). *)
Theorem exchange_failure_commits_nothing cfg w args m code v resp d :
  passes_guards args m code v →
  w_send w (sent m) (token_request cfg code v) = Ok resp →
  rs_json resp = Ok (VDict d) →
  is_Some (d !! "error") ∨ truthy (default VNone (d !! "access_token")) = false →
  let r := keycloak_oauth_callback cfg w args m in
  failed m r
  ∧ session r.2 = session m
  ∧ session r.2 !! "is_authed" = session m !! "is_authed"
  ∧ sent r.2 = sent m ++ [token_request cfg code v].
Proof.
  intros Hg Hsend Hjson Hfail r. subst r. rewrite (callback_passes_guards _ _ _ _ _ _ Hg).
  destruct (d !! "error") as [x|] eqn:Herr.
  - erewrite try_except_ok
      by (eapply exchange_rejected; [done | done | by rewrite Herr]).
    repeat split; eauto.
  - destruct Hfail as [[? ?] | Htok]; [done|].
    erewrite try_except_ok by (by eapply exchange_without_token).
    repeat split; eauto.
Qed.

Lemma exchange_failure_commits_nothing_witness :
  let r := keycloak_oauth_callback Scenario.cfg Scenario.world_invalid_grant
             Scenario.args_ok Scenario.pending in
  failed Scenario.pending r
  ∧ session r.2 = session Scenario.pending
  ∧ session r.2 !! "is_authed" = session Scenario.pending !! "is_authed"
  ∧ sent r.2 = sent Scenario.pending
               ++ [token_request Scenario.cfg "c1" (VStr "V")].
Proof.
  apply (exchange_failure_commits_nothing Scenario.cfg Scenario.world_invalid_grant
           Scenario.args_ok Scenario.pending "c1" (VStr "V")
           (Scenario.json_response 400 "Bad Request" Scenario.token_url
              (<["error" := VStr "invalid_grant"]>
              (<["error_description" := VStr "Code not valid"]> ∅)))
           (<["error" := VStr "invalid_grant"]>
              (<["error_description" := VStr "Code not valid"]> ∅))).
  - split.
    + reflexivity.
    + exists "S". repeat split; reflexivity.
    + split; reflexivity.
    + split; reflexivity.
  - reflexivity.
  - reflexivity.
  - left. exists (VStr "invalid_grant"). reflexivity.
Defined.

(** ** The identity lookup *)

Lemma exchange_reaches_identity cfg w code v m tok :
  exchange_succeeds cfg w m code v tok →
  exchange_and_finalize cfg w code v m
  = identify_and_finalize cfg w tok (add_sent (token_request cfg code v) m).
Proof.
  intros (resp & d & Hsend & Hjson & Herr & Htok & Htruthy).
  unfold exchange_and_finalize.
  erewrite bind_ok by (by apply http_send_ok).
  erewrite bind_ok by (unfold response_json, lift; by rewrite Hjson).
  erewrite bind_ok by reflexivity.
  rewrite bool_decide_false by (rewrite Herr; by intros [? ?]).
  erewrite bind_ok by (unfold py_get; simpl; by rewrite Htok).
  simpl. by rewrite Htruthy.
Qed.

Lemma fetch_user_info_none cfg w tok m :
  identity_lookup_fails w (sent m) (userinfo_request cfg tok) →
  fetch_user_info cfg w tok m = (Ok VNone, add_sent (userinfo_request cfg tok) m).
Proof.
  intros [(cls & msg & H) | [(r & H & Hst) | (r & cls & msg & H & Hst & Hj)]];
    unfold fetch_user_info.
  - erewrite try_except_caught; [done|]. erewrite bind_raise; [done|].
    by apply http_send_raise.
  - erewrite try_except_ok; [done|]. erewrite bind_ok by (by apply http_send_ok).
    by rewrite (proj2 (Z.eqb_neq _ _) Hst).
  - erewrite try_except_caught; [done|]. erewrite bind_ok by (by apply http_send_ok).
    rewrite Hst. simpl. unfold response_json, lift. by rewrite Hj.
Qed.

Lemma fetch_user_info_claims cfg w tok m u :
  identity_obtained w (sent m) (userinfo_request cfg tok) u →
  fetch_user_info cfg w tok m = (Ok (VDict u), add_sent (userinfo_request cfg tok) m).
Proof.
  intros (r & H & Hst & Hj). unfold fetch_user_info.
  erewrite try_except_ok; [done|]. erewrite bind_ok by (by apply http_send_ok).
  rewrite Hst. simpl. unfold response_json, lift. by rewrite Hj.
Qed.

(** C1, on the code. The claim asks for an authenticated session after
    a failed identity lookup; the code does otherwise. When the state
    matches, the code and the verifier are present and the exchange
    succeeds, a failed identity lookup leaves [user_info] at [None]; the
    next statement calls [user_info.get] and the callback ends with an
    uncaught [AttributeError], the session unchanged and not marked
    authenticated. *)
Theorem identity_failure_raises cfg w args m code v tok :
  passes_guards args m code v →
  exchange_succeeds cfg w m code v tok →
  identity_lookup_fails w (sent m ++ [token_request cfg code v]) (userinfo_request cfg tok) →
  let r := keycloak_oauth_callback cfg w args m in
  r.1 = Raise (PyException "AttributeError" [Lit "'NoneType' object has no attribute 'get'"])
  ∧ session r.2 = session m
  ∧ flashes r.2 = flashes m
  ∧ sent r.2 = sent m ++ [token_request cfg code v; userinfo_request cfg tok].
Proof.
  intros Hg Hex Hid r. subst r. rewrite (callback_passes_guards _ _ _ _ _ _ Hg).
  erewrite try_except_escapes.
  2:{ rewrite (exchange_reaches_identity _ _ _ _ _ _ Hex). unfold identify_and_finalize.
      erewrite bind_ok by (by apply fetch_user_info_none).
      by erewrite bind_raise by reflexivity. }
  simpl. repeat split. by rewrite <- app_assoc.
Qed.

Lemma identity_failure_raises_witness :
  let r := keycloak_oauth_callback Scenario.cfg Scenario.world_userinfo_down
             Scenario.args_ok Scenario.pending in
  r.1 = Raise (PyException "AttributeError" [Lit "'NoneType' object has no attribute 'get'"])
  ∧ session r.2 = session Scenario.pending
  ∧ flashes r.2 = flashes Scenario.pending
  ∧ sent r.2 = sent Scenario.pending
               ++ [token_request Scenario.cfg "c1" (VStr "V");
                   userinfo_request Scenario.cfg (VStr "T1")].
Proof.
  apply (identity_failure_raises Scenario.cfg Scenario.world_userinfo_down
           Scenario.args_ok Scenario.pending "c1" (VStr "V") (VStr "T1")).
  - split.
    + reflexivity.
    + exists "S". repeat split; reflexivity.
    + split; reflexivity.
    + split; reflexivity.
  - eexists _, _. repeat split; reflexivity.
  - right. left. eexists. split; [reflexivity | vm_compute; discriminate].
Defined.

(** ** The resource counter *)

Lemma raise_for_status_pass r m :
  ¬ (400 ≤ status_code r < 600) → raise_for_status r m = (Ok tt, m).
Proof.
  intros H. unfold raise_for_status.
  destruct (400 <=? status_code r) eqn:E1, (status_code r <? 500) eqn:E2,
    (500 <=? status_code r) eqn:E3, (status_code r <? 600) eqn:E4; simpl; try done; lia.
Qed.

Lemma call_fails_raises {A} w rq (k : http_response → M A) m e :
  call_fails w (sent m) rq e →
  (response ← http_send w rq; raise_for_status response;; k response) m
  = (Raise e, add_sent rq m).
Proof.
  intros [cls msg H | r H Hst | r H Hst].
  - erewrite bind_raise; [done|]. by apply http_send_raise.
  - erewrite bind_ok by (by apply http_send_ok).
    erewrite bind_raise; [done|]. unfold raise_for_status.
    by rewrite (proj2 (Z.leb_le _ _) (proj1 Hst)), (proj2 (Z.ltb_lt _ _) (proj2 Hst)).
  - erewrite bind_ok by (by apply http_send_ok).
    erewrite bind_raise; [done|]. unfold raise_for_status.
    rewrite (proj2 (Z.leb_le _ _) (proj1 Hst)), (proj2 (Z.ltb_lt _ _) (proj2 Hst)).
    replace (400 <=? status_code r) with true by (symmetry; apply Z.leb_le; lia).
    replace (status_code r <? 500) with false by (symmetry; apply Z.ltb_ge; lia).
    done.
Qed.

Lemma call_fails_RequestException w log rq e :
  call_fails w log rq e → ∃ cls msg, e = RequestException cls msg.
Proof. intros [cls msg _ | r _ _ | r _ _]; eauto. Qed.

(** A failed lookup raises its exception after one or two logged calls;
    the session and the flashed messages are as before. *)
Lemma lookup_fails_raises cfg w p m e :
  lookup_fails cfg w (sent m) p e →
  ∃ m', get_all_vms_in_cloud cfg w p m = (Raise e, m')
        ∧ session m' = session m ∧ flashes m' = flashes m
        ∧ ∃ cls msg, e = RequestException cls msg.
Proof.
  intros [e' H | r d e' Hsend Hst Hj H]; unfold get_all_vms_in_cloud.
  - eexists. split; [|split; [|split]]; [| | |by eapply call_fails_RequestException].
    + erewrite bind_raise; [done|]. unfold get_access_token_from_cloud.
      by apply call_fails_raises.
    + done.
    + done.
  - eexists. split; [|split; [|split]]; [| | |by eapply call_fails_RequestException].
    + erewrite bind_ok.
      2:{ unfold get_access_token_from_cloud.
          erewrite bind_ok by (by apply http_send_ok).
          erewrite bind_ok by (by apply raise_for_status_pass).
          erewrite bind_ok by (unfold response_json, lift; by rewrite Hj).
          by erewrite bind_ok by reflexivity. }
      by apply call_fails_raises.
    + done.
    + done.
Qed.

(** The resource counter does not look at the project it is given. *)
Lemma get_all_vms_in_cloud_any_project cfg w p p' :
  get_all_vms_in_cloud cfg w p = get_all_vms_in_cloud cfg w p'.
Proof. reflexivity. Qed.

(** An inventory answer without a [total] field is read as the count 0. *)
Lemma missing_total_is_zero cfg w p m r d r' d' :
  w_send w (sent m) (cloud_token_request cfg) = Ok r →
  ¬ (400 ≤ status_code r < 600) →
  rs_json r = Ok (VDict d) →
  w_send w (sent m ++ [cloud_token_request cfg])
    (vms_request p (default VNone (d !! "access_token"))) = Ok r' →
  ¬ (400 ≤ status_code r' < 600) →
  rs_json r' = Ok (VDict d') →
  d' !! "total" = None →
  (get_all_vms_in_cloud cfg w p m).1 = Ok (VInt 0).
Proof.
  intros Hsend Hst Hj Hsend' Hst' Hj' Hd'. unfold get_all_vms_in_cloud.
  erewrite bind_ok.
  2:{ unfold get_access_token_from_cloud.
      erewrite bind_ok by (by apply http_send_ok).
      erewrite bind_ok by (by apply raise_for_status_pass).
      erewrite bind_ok by (unfold response_json, lift; by rewrite Hj).
      by erewrite bind_ok by reflexivity. }
  erewrite bind_ok by (by apply http_send_ok).
  erewrite bind_ok by (by apply raise_for_status_pass).
  erewrite bind_ok by (unfold response_json, lift; by rewrite Hj').
  erewrite bind_ok by reflexivity. simpl. by rewrite Hd'.
Qed.

(** C2 as stated fails: with the cloud token endpoint answering 500 the
    callback reaches the resource-count step (state matched, exchange
    succeeded, claims obtained), the lookup fails, and the session is not
    finalized as authenticated. *)
Lemma resource_failure_not_authenticated :
  let m := Scenario.pending in
  let w := Scenario.world_cloud_down in
  let r := keycloak_oauth_callback Scenario.cfg w Scenario.args_ok m in
  passes_guards Scenario.args_ok m "c1" (VStr "V")
  ∧ exchange_succeeds Scenario.cfg w m "c1" (VStr "V") (VStr "T1")
  ∧ identity_obtained w (sent m ++ [token_request Scenario.cfg "c1" (VStr "V")])
      (userinfo_request Scenario.cfg (VStr "T1")) Scenario.alice
  ∧ lookup_fails Scenario.cfg w
      (sent m ++ [token_request Scenario.cfg "c1" (VStr "V");
                  userinfo_request Scenario.cfg (VStr "T1")])
      (VStr "P1")
      (RequestException "HTTPError"
         [Val (VInt 500); Lit " Server Error: "; Lit "Internal Server Error";
          Lit " for url: "; Lit Scenario.cloud_token_url])
  ∧ r.1 = Ok (Redirect "/")
  ∧ session r.2 !! "is_authed" = None
  ∧ ¬ finalized m r.
Proof.
  split; [|split; [|split; [|split; [|split; [|split]]]]].
  - split; [reflexivity | exists "S"; repeat split; reflexivity
           | split; reflexivity | split; reflexivity].
  - eexists _, _. repeat split; reflexivity.
  - eexists. repeat split; reflexivity.
  - apply at_service_token.
    apply (server_error _ _ _
             (Scenario.json_response 500 "Internal Server Error"
                Scenario.cloud_token_url ∅)); [reflexivity | simpl; lia].
  - reflexivity.
  - reflexivity.
  - intros [_ H]. vm_compute in H. discriminate.
Qed.

(** C4, on the code. The claim asks for the inventory of the given
    project; the code does otherwise. The identity claims name project
    P1, whose inventory holds 7 machines; the two inventory requests of
    the callback both ask for project
    49abf5c8-9f16-4ca3-b5d3-5eca9bfac631, and the count stored in the
    session is that project's, 3. *)
Theorem inventory_query_ignores_project :
  let r := keycloak_oauth_callback Scenario.cfg Scenario.world_by_project
             Scenario.args_ok Scenario.pending in
  r.1 = Ok (Redirect "/")
  ∧ session r.2 !! "user_cloud_project_id" = Some (VStr "P1")
  ∧ Scenario.inventory_by_project (Scenario.vms_url "P1")
    = Ok (Scenario.json_response 200 "OK" (Scenario.vms_url "P1") (<["total" := VInt 7]> ∅))
  ∧ rq_url <$> sent r.2
    = [Scenario.token_url; Scenario.userinfo_url;
       Scenario.cloud_token_url;
       Scenario.vms_url "49abf5c8-9f16-4ca3-b5d3-5eca9bfac631";
       Scenario.cloud_token_url;
       Scenario.vms_url "49abf5c8-9f16-4ca3-b5d3-5eca9bfac631"]
  ∧ session r.2 !! "all_vms" = Some (VInt 3).
Proof. repeat split; reflexivity. Qed.

(** ** What the outbound calls leave untouched *)

Lemma store_preserving_ret {A} (a : A) : store_preserving (mret a).
Proof. intros m r m' H. by inversion H. Qed.

Lemma store_preserving_raise {A} e : store_preserving (raise (A := A) e).
Proof. intros m r m' H. by inversion H. Qed.

Lemma store_preserving_lift {A} (o : outcome A) : store_preserving (lift o).
Proof. intros m r m' H. by inversion H. Qed.

Lemma store_preserving_bind {A B} (c : M A) (f : A → M B) :
  store_preserving c → (∀ a, store_preserving (f a)) → store_preserving (c ≫= f).
Proof.
  intros Hc Hf m r m' H.
  apply bind_inv in H as [(a & m1 & H1 & H2) | (e & H1 & ->)].
  - destruct (Hc _ _ _ H1) as [E1 E2], (Hf _ _ _ _ H2) as [E3 E4].
    split; congruence.
  - by eapply Hc.
Qed.

Lemma store_preserving_try {A} (body : M A) handler :
  store_preserving body → (∀ e, store_preserving (handler e)) →
  store_preserving (try_except_RequestException body handler).
Proof.
  intros Hb Hh m r m' H. unfold try_except_RequestException in H.
  destruct (body m) as [[a|[cls msg|cls msg]] m1] eqn:E.
  - inversion H; subst. by eapply Hb.
  - destruct (Hb _ _ _ E) as [E1 E2], (Hh _ _ _ _ H) as [E3 E4].
    split; congruence.
  - inversion H; subst. by eapply Hb.
Qed.

Lemma store_preserving_send w rq : store_preserving (http_send w rq).
Proof.
  intros m r m' H. unfold http_send in H.
  destruct (w_send w (sent m) rq); by inversion H.
Qed.

Lemma store_preserving_raise_for_status r : store_preserving (raise_for_status r).
Proof.
  unfold raise_for_status.
  repeat case_match; first [apply store_preserving_raise | apply store_preserving_ret].
Qed.

Lemma store_preserving_get v key dflt : store_preserving (py_get_default v key dflt).
Proof.
  destruct v; simpl; first [apply store_preserving_raise | apply store_preserving_ret].
Qed.

Lemma store_preserving_in key v : store_preserving (py_in key v).
Proof.
  destruct v; simpl; first [apply store_preserving_raise | apply store_preserving_ret].
Qed.

Create HintDb store discriminated.
#[local] Hint Resolve store_preserving_ret store_preserving_raise store_preserving_lift
  store_preserving_send store_preserving_raise_for_status store_preserving_get
  store_preserving_in : store.
#[local] Hint Extern 2 (store_preserving (_ ≫= _)) =>
  apply store_preserving_bind; [| intros ?] : store.
#[local] Hint Extern 2 (store_preserving (try_except_RequestException _ _)) =>
  apply store_preserving_try; [| intros ?] : store.
#[local] Hint Extern 2 (store_preserving (if _ then _ else _)) => case_match : store.

Lemma store_preserving_cloud_token cfg w :
  store_preserving (get_access_token_from_cloud cfg w).
Proof.
  unfold get_access_token_from_cloud, response_json, py_get. auto 10 with store.
Qed.

Lemma store_preserving_vms cfg w p : store_preserving (get_all_vms_in_cloud cfg w p).
Proof.
  unfold get_all_vms_in_cloud, response_json.
  apply store_preserving_bind; [apply store_preserving_cloud_token | intros ?].
  auto 10 with store.
Qed.

Lemma store_preserving_user_info cfg w tok : store_preserving (fetch_user_info cfg w tok).
Proof. unfold fetch_user_info, response_json. auto 10 with store. Qed.

(** ** Every way the callback can end *)

Lemma pending_kept_store m m' : session m' = session m → pending_kept m m'.
Proof. intros H. unfold pending_kept. by rewrite H. Qed.

Tactic Notation "run_bind" hyp(H) "as" ident(a) ident(m1) ident(Hc) :=
  apply bind_inv in H as [(a & m1 & Hc & H) | (a & Hc & ->)].

(** The block guarded by [if user_info:] writes the identity fields and
    runs the second lookup; it leaves the flashed messages, the pending
    flow and [is_authed] alone. *)
Lemma identity_block_effect cfg w (user_info p : pyval) u m r m' :
  user_info = VDict u →
  (if truthy user_info then
     email ← py_get user_info "email";
     session_set "user_email" email;;
     preferred_username ← py_get user_info "preferred_username";
     user_name ← (if truthy preferred_username then mret preferred_username
                  else py_get user_info "name");
     session_set "user_name" user_name;;
     project ← py_get user_info "cloud_project_id";
     session_set "user_cloud_project_id" project;;
     all_vms ← get_all_vms_in_cloud cfg w p;
     session_set "all_vms" all_vms
   else mret tt) m = (r, m') →
  flashes m' = flashes m
  ∧ pending_kept m m'
  ∧ session m' !! "is_authed" = session m !! "is_authed".
Proof.
  intros -> H. destruct (truthy (VDict u)).
  - erewrite bind_ok in H by reflexivity.
    erewrite bind_ok in H by reflexivity.
    erewrite bind_ok in H by reflexivity.
    destruct (truthy (default VNone (u !! "preferred_username")));
      erewrite bind_ok in H by reflexivity;
      erewrite bind_ok in H by reflexivity;
      erewrite bind_ok in H by reflexivity;
      erewrite bind_ok in H by reflexivity;
      (run_bind H as n m1 Hc;
         destruct (store_preserving_vms _ _ _ _ _ _ Hc) as [Hs Hf];
         [inversion H; subst; clear H|];
         unfold pending_kept; simpl; rewrite Hs, Hf; simpl; by simplify_map_eq).
  - by inversion H.
Qed.

(** From the access token on, the callback either raises, with the pending
    flow still stored and nothing flashed, or finalizes. *)
Lemma identify_and_finalize_outcome cfg w tok m r m' :
  identify_and_finalize cfg w tok m = (r, m') →
  (∃ e, r = Raise e ∧ flashes m' = flashes m ∧ pending_kept m m')
  ∨ (r = Ok (Redirect "/")
     ∧ flashes m' = flashes m ++ [("success", success_message)]
     ∧ pending_removed m'
     ∧ session m' !! "is_authed" = Some (VBool true)).
Proof.
  unfold identify_and_finalize. intros H.
  run_bind H as user_info m1 H1;
    destruct (store_preserving_user_info _ _ _ _ _ _ H1) as [Hs1 Hf1].
  2:{ left. eexists. split; [done|]. split; [done | by apply pending_kept_store]. }
  run_bind H as p m2 H2;
    destruct (store_preserving_get _ _ _ _ _ _ H2) as [Hs2 Hf2].
  2:{ left. eexists. split; [done|].
      split; [congruence | apply pending_kept_store; congruence]. }
  destruct user_info as [| | | | |u]; try (by inversion H2).
  run_bind H as n m3 H3;
    destruct (store_preserving_vms _ _ _ _ _ _ H3) as [Hs3 Hf3].
  2:{ left. eexists. split; [done|].
      split; [congruence | apply pending_kept_store; congruence]. }
  erewrite bind_ok in H by reflexivity.
  erewrite bind_ok in H by reflexivity.
  run_bind H as t m4 H4;
    destruct (identity_block_effect _ _ _ _ _ _ _ _ eq_refl H4) as (Hf4 & [Hk1 Hk2] & Ha).
  - right. inversion H; subst; clear H. unfold pending_removed.
    cbn [session flashes with_session add_flash] in *.
    split; [done|]. split; [unfold success_message; congruence|].
    split; [split|]; simplify_map_eq; done.
  - left. eexists. split; [done|].
    cbn [session flashes with_session add_flash] in *.
    split; [congruence|]. unfold pending_kept.
    simplify_map_eq. split; congruence.
Qed.

Lemma exchange_and_finalize_outcome cfg w code v m r m' :
  exchange_and_finalize cfg w code v m = (r, m') →
  (∃ e, r = Raise e ∧ flashes m' = flashes m ∧ pending_kept m m')
  ∨ (r = Ok (Redirect "/")
     ∧ (∃ message, flashes m' = flashes m ++ [("error", message)])
     ∧ session m' = session m)
  ∨ (r = Ok (Redirect "/")
     ∧ flashes m' = flashes m ++ [("success", success_message)]
     ∧ pending_removed m'
     ∧ session m' !! "is_authed" = Some (VBool true)).
Proof.
  unfold exchange_and_finalize. intros H.
  run_bind H as resp m1 H1;
    destruct (store_preserving_send _ _ _ _ _ H1) as [Hs1 Hf1].
  2:{ left. eexists. split; [done|]. split; [done | by apply pending_kept_store]. }
  run_bind H as result m2 H2;
    destruct (store_preserving_lift _ _ _ _ H2) as [Hs2 Hf2].
  2:{ left. eexists. split; [done|].
      split; [congruence | apply pending_kept_store; congruence]. }
  run_bind H as has_error m3 H3;
    destruct (store_preserving_in _ _ _ _ _ H3) as [Hs3 Hf3].
  2:{ left. eexists. split; [done|].
      split; [congruence | apply pending_kept_store; congruence]. }
  destruct has_error.
  - run_bind H as unknown m4 H4;
      destruct (store_preserving_get _ _ _ _ _ _ H4) as [Hs4 Hf4].
    2:{ left. eexists. split; [done|].
        split; [congruence | apply pending_kept_store; congruence]. }
    run_bind H as detail m5 H5;
      destruct (store_preserving_get _ _ _ _ _ _ H5) as [Hs5 Hf5].
    2:{ left. eexists. split; [done|].
        split; [congruence | apply pending_kept_store; congruence]. }
    right. left. inversion H; subst; clear H.
    cbn [session flashes add_flash]. split; [done|].
    split; [eexists; f_equal; congruence | congruence].
  - run_bind H as access_token m4 H4;
      destruct (store_preserving_get _ _ _ _ _ _ H4) as [Hs4 Hf4].
    2:{ left. eexists. split; [done|].
        split; [congruence | apply pending_kept_store; congruence]. }
    destruct (truthy access_token).
    + apply identify_and_finalize_outcome in H
        as [(e & -> & Hf & Hk1 & Hk2) | (-> & Hf & Hr & Ha)].
      * left. eexists. split; [done|]. split; [congruence|].
        unfold pending_kept. split; congruence.
      * right. right. split; [done|]. split; [|done]. rewrite Hf. f_equal. congruence.
    + right. left. inversion H; subst; clear H.
      cbn [session flashes add_flash]. split; [done|].
      split; [eexists; f_equal; congruence | congruence].
Qed.

(** The callback ends in exactly one of three ways: an exception escapes
    (nothing flashed, pending flow kept); a Failed transition (pending
    flow kept); the Finalized transition (pending flow removed, session
    authenticated). *)
Lemma callback_outcome cfg w args m :
  let r := keycloak_oauth_callback cfg w args m in
  (∃ e, r.1 = Raise e ∧ flashes r.2 = flashes m ∧ pending_kept m r.2)
  ∨ (failed m r ∧ pending_kept m r.2)
  ∨ (finalized m r ∧ pending_removed r.2
     ∧ session r.2 !! "is_authed" = Some (VBool true)).
Proof.
  intros r. subst r. unfold failed, finalized.
  assert (Hflash : ∀ message,
    let r := (Ok (Redirect "/"), add_flash ("error", message) m) in
    (r.1 = Ok (Redirect "/") ∧ ∃ message, flashes r.2 = flashes m ++ [("error", message)])
    ∧ pending_kept m r.2).
  { intros message. simpl. split; [split; [done | by eexists] | done]. }
  destruct (truthy (of_arg (args !! "error"))) eqn:Herr.
  { rewrite callback_provider_error by done. right. left. apply Hflash. }
  destruct (negb (truthy (of_arg (args !! "state")))
            || arg_ne (args !! "state") (default VNone (session m !! "keycloak_state")))
    eqn:Hst.
  { rewrite callback_state_rejected by done. right. left. apply Hflash. }
  unfold keycloak_oauth_callback. rewrite Herr. cbv zeta.
  erewrite bind_ok by reflexivity. rewrite Hst.
  destruct (args !! "code") as [[|c code]|]; try (right; left; apply Hflash).
  erewrite bind_ok by reflexivity.
  destruct (negb (truthy (default VNone (session m !! "keycloak_code_verifier"))));
    [right; left; apply Hflash|].
  unfold try_except_RequestException.
  destruct (exchange_and_finalize _ _ _ _ m) as [r m'] eqn:E.
  apply exchange_and_finalize_outcome in E
    as [(e & -> & Hf & Hk) | [(-> & [msg Hf] & Hs) | (-> & Hf & Hr & Ha)]].
  - destruct e as [cls msg | cls msg].
    + right. left. simpl. rewrite Hf. split; [split; [done | by eexists] | done].
    + left. simpl. eauto 10.
  - right. left. simpl. split; [eauto|]. by apply pending_kept_store.
  - right. right. done.
Qed.

(** A callback that fails leaves the stored state and verifier in place. *)
Lemma failed_keeps_pending_flow cfg w args m :
  let r := keycloak_oauth_callback cfg w args m in
  failed m r → pending_kept m r.2.
Proof.
  intros r H. subst r. destruct H as [Hr [msg Hf]].
  destruct (callback_outcome cfg w args m)
    as [(e & He & _) | [[_ Hk] | [[_ Hf'] _]]].
  - congruence.
  - done.
  - rewrite Hf in Hf'. apply app_inv_head in Hf'. discriminate.
Qed.

(** Without a stored state every callback ends at the first or second
    guard. *)
Lemma callback_without_pending_flow cfg w args m :
  session m !! "keycloak_state" = None →
  keycloak_oauth_callback cfg w args m
  = (Ok (Redirect "/"),
     add_flash ("error", if truthy (of_arg (args !! "error"))
                         then provider_error_message args else csrf_message) m).
Proof.
  intros Hnone. destruct (truthy (of_arg (args !! "error"))) eqn:Herr.
  - by apply callback_provider_error.
  - apply callback_state_rejected; [done|]. rewrite Hnone.
    by destruct (args !! "state") as [[|c s]|].
Qed.

(** C3 as stated fails: a callback that ends in a Failed transition (the
    token endpoint answers invalid_grant) leaves the stored state and
    verifier in the session, and a second callback with the same code and
    state passes the CSRF check; when the token endpoint accepts that
    second exchange the session is finalized. *)
Lemma failed_flow_stays_pending :
  let r1 := keycloak_oauth_callback Scenario.cfg Scenario.world_second_try
              Scenario.args_ok Scenario.pending in
  let r2 := keycloak_oauth_callback Scenario.cfg Scenario.world_second_try
              Scenario.args_ok r1.2 in
  failed Scenario.pending r1
  ∧ session r1.2 !! "keycloak_state" = Some (VStr "S")
  ∧ session r1.2 !! "keycloak_code_verifier" = Some (VStr "V")
  ∧ ¬ pending_removed r1.2
  ∧ finalized r1.2 r2
  ∧ session r2.2 !! "is_authed" = Some (VBool true).
Proof.
  split; [|split; [|split; [|split; [|split]]]].
  - split; [reflexivity | eexists; reflexivity].
  - reflexivity.
  - reflexivity.
  - intros [H _]. vm_compute in H. discriminate.
  - split; reflexivity.
  - reflexivity.
Qed.

(** C3, amended. A callback that ends in the Finalized transition has
    removed the stored state and verifier, so a second callback presenting
    the same code and state, whatever the provider answers, fails with the
    CSRF error, makes no outbound call and leaves the session as the first
    one finalized it. *)
Theorem finalized_flow_is_consumed cfg w args m :
  let r := keycloak_oauth_callback cfg w args m in
  finalized m r →
  pending_removed r.2
  ∧ ∀ w',
      let r' := keycloak_oauth_callback cfg w' args r.2 in
      r'.1 = Ok (Redirect "/")
      ∧ flashes r'.2 = flashes r.2 ++ [("error", csrf_message)]
      ∧ session r'.2 = session r.2
      ∧ sent r'.2 = sent r.2.
Proof.
  intros r H. subst r. destruct H as [Hr Hf].
  assert (Herr : truthy (of_arg (args !! "error")) = false).
  { destruct (truthy (of_arg (args !! "error"))) eqn:E; [|done].
    rewrite callback_provider_error in Hf by done. simpl in Hf.
    apply app_inv_head in Hf. discriminate. }
  destruct (callback_outcome cfg w args m)
    as [(e & He & _) | [[[_ [msg Hf']] _] | (_ & Hrem & _)]].
  - congruence.
  - rewrite Hf in Hf'. apply app_inv_head in Hf'. discriminate.
  - split; [done|]. intros w' r'. subst r'.
    rewrite callback_without_pending_flow by apply Hrem. by rewrite Herr.
Qed.

Lemma finalized_flow_is_consumed_witness :
  let r := keycloak_oauth_callback Scenario.cfg Scenario.world_ok
             Scenario.args_ok Scenario.pending in
  pending_removed r.2
  ∧ ∀ w',
      let r' := keycloak_oauth_callback Scenario.cfg w' Scenario.args_ok r.2 in
      r'.1 = Ok (Redirect "/")
      ∧ flashes r'.2 = flashes r.2 ++ [("error", csrf_message)]
      ∧ session r'.2 = session r.2
      ∧ sent r'.2 = sent r.2.
Proof.
  apply (finalized_flow_is_consumed Scenario.cfg Scenario.world_ok
           Scenario.args_ok Scenario.pending).
  split; reflexivity.
Defined.

(** C9. Logout empties the session, the stored state and verifier of a
    pending flow included; whatever callback arrives next ends at the
    provider-error guard or, when it carries no error parameter, at the
    CSRF check: it flashes that error, makes no outbound call, and the
    session stays empty. *)
Theorem logout_clears_pending_flow m :
  let r := logout m in
  r.1 = Ok (Redirect "/")
  ∧ session r.2 = ∅
  ∧ pending_removed r.2
  ∧ ∀ cfg w args,
      let r' := keycloak_oauth_callback cfg w args r.2 in
      r'.1 = Ok (Redirect "/")
      ∧ flashes r'.2
        = flashes r.2 ++ [("error", if truthy (of_arg (args !! "error"))
                                    then provider_error_message args
                                    else csrf_message)]
      ∧ session r'.2 = ∅
      ∧ sent r'.2 = sent r.2.
Proof.
  simpl. split; [done|]. split; [done|]. split; [done|].
  intros cfg w args. by rewrite callback_without_pending_flow.
Qed.

(** ** PKCE: the verifier and the challenge are always produced *)

Lemma is_ascii_nth (l : list Byte.byte) d n :
  Forall (λ b, is_ascii_byte b = true) l → is_ascii_byte d = true →
  is_ascii_byte (nth n l d) = true.
Proof.
  intros Hl Hd. revert n. induction Hl as [|x l Hx Hl IH]; intros [|n]; simpl; auto.
Qed.

Lemma is_ascii_digit i : is_ascii_byte (base64.digit i) = true.
Proof.
  unfold base64.digit. apply is_ascii_nth; [|done].
  unfold base64.urlsafe_alphabet. repeat constructor.
Qed.

Lemma is_ascii_b64encode s :
  Forall (λ b, is_ascii_byte b = true) (base64.urlsafe_b64encode s).
Proof.
  assert (H : ∀ n s, (length s ≤ n)%nat →
                Forall (λ b, is_ascii_byte b = true) (base64.urlsafe_b64encode s)).
  { induction n as [|n IH]; intros [|x [|y [|z rest]]] Hlen; simpl in *;
      repeat constructor; try apply is_ascii_digit; try lia.
    apply IH. lia. }
  by apply (H (length s)).
Qed.

Lemma in_lstrip_byte c b l : In b (lstrip_byte c l) → In b l.
Proof.
  induction l as [|x l IH]; simpl; [done|].
  destruct (Byte.eqb x c); [by right; apply IH | done].
Qed.

Lemma is_ascii_b64_text s :
  forallb is_ascii_byte (rstrip_byte base64.pad_byte (base64.urlsafe_b64encode s)) = true.
Proof.
  apply forallb_forall. intros b Hb. unfold rstrip_byte in Hb.
  apply in_rev, in_lstrip_byte, in_rev in Hb.
  by apply (proj1 (List.Forall_forall _ _) (is_ascii_b64encode s)).
Qed.

Lemma token_urlsafe_of_total tok : token_urlsafe_of tok = Ok (b64_text tok).
Proof. unfold token_urlsafe_of, decode_ascii. by rewrite is_ascii_b64_text. Qed.

Lemma encode_ascii_b64_text s :
  encode_ascii (b64_text s)
  = Ok (rstrip_byte base64.pad_byte (base64.urlsafe_b64encode s)).
Proof.
  unfold encode_ascii, b64_text.
  by rewrite String.list_byte_of_string_of_list_byte, is_ascii_b64_text.
Qed.

Lemma generate_code_challenge_total tok :
  generate_code_challenge (b64_text tok)
  = Ok (b64_text (hashlib.sha256
                    (rstrip_byte base64.pad_byte (base64.urlsafe_b64encode tok)))).
Proof.
  unfold generate_code_challenge. rewrite encode_ascii_b64_text.
  unfold decode_ascii. by rewrite is_ascii_b64_text.
Qed.

(** The challenge that [init_success] puts in the URL is the S256
    transform of the verifier it stores. *)
Lemma s256_of_b64_text tok :
  b64_text (hashlib.sha256
              (rstrip_byte base64.pad_byte (base64.urlsafe_b64encode tok)))
  = b64_text (hashlib.sha256 (String.list_byte_of_string (b64_text tok))).
Proof. unfold b64_text at 3. by rewrite String.list_byte_of_string_of_list_byte. Qed.

(** ** Flow initiation *)

Lemma init_not_configured cfg w m :
  keycloak_configured cfg = false →
  keycloak_oauth_init cfg w m
  = (Ok (Jsonify (init_error_body "Keycloak not configured") 500), m).
Proof.
  unfold keycloak_configured, keycloak_oauth_init. intros H.
  rewrite <- !negb_andb, H. done.
Qed.

Lemma init_no_origin cfg w m :
  keycloak_configured cfg = true → str_truthy (APP_ORIGIN cfg) = false →
  keycloak_oauth_init cfg w m
  = (Ok (Jsonify (init_error_body "APP_ORIGIN not configured") 500), m).
Proof.
  unfold keycloak_configured, keycloak_oauth_init. intros H Ho.
  rewrite <- !negb_andb, H, Ho. done.
Qed.

Lemma init_unreachable cfg w m :
  config_complete cfg = true → w_system w (commands m) ping_command ≠ 0 →
  keycloak_oauth_init cfg w m
  = (Ok (Jsonify (init_error_body "Network issues with Keycloak") 500), probed m).
Proof.
  unfold config_complete, keycloak_configured, keycloak_oauth_init.
  intros [H Ho]%andb_prop Hping. unfold ping_command in Hping.
  rewrite <- !negb_andb, H, Ho. cbn [negb].
  erewrite bind_ok by reflexivity.
  by rewrite (proj2 (Z.eqb_neq _ _) Hping).
Qed.

(** The run of a successful initiation, with the verifier [V], the
    challenge [C] and the state [S] it generates. *)
Lemma init_success cfg w m :
  config_complete cfg = true → w_system w (commands m) ping_command = 0 →
  let V := b64_text (w_token_bytes w (draws m) 32) in
  let S := b64_text (w_token_bytes w (1 + draws m) 32) in
  let C := b64_text (hashlib.sha256
             (rstrip_byte base64.pad_byte
                (base64.urlsafe_b64encode (w_token_bytes w (draws m) 32)))) in
  keycloak_oauth_init cfg w m
  = (Ok (Jsonify
           (init_success_body
              (authorization_endpoint cfg +:+ "?"
                 +:+ urllib.urlencode (authorization_params cfg S C)) S) 200),
     {| session := <["keycloak_code_verifier" := VStr V]>
                     (<["keycloak_state" := VStr S]> (session m));
        flashes := flashes m; sent := sent m;
        commands := commands m ++ [ping_command];
        draws := 2 + draws m |}).
Proof.
  unfold config_complete, keycloak_configured, keycloak_oauth_init.
  intros [H Ho]%andb_prop Hping. cbv zeta. unfold ping_command in Hping.
  rewrite <- !negb_andb, H, Ho. cbn [negb].
  erewrite bind_ok by reflexivity. rewrite Hping, Z.eqb_refl. cbn [negb].
  erewrite bind_ok
    by (unfold generate_code_verifier, token_urlsafe;
        by rewrite token_urlsafe_of_total).
  erewrite bind_ok by (unfold lift; by rewrite generate_code_challenge_total).
  erewrite bind_ok
    by (unfold token_urlsafe; by rewrite token_urlsafe_of_total).
  reflexivity.
Qed.

(** C8. A flow initiation with a required setting missing answers the
    configuration error, and one whose liveness probe fails answers the
    provider-unreachable error (status 500 both); in either case no
    verifier, challenge or state has been drawn and the session is
    unchanged, so no pending flow is stored. *)
Theorem init_failure_stores_nothing cfg w m :
  config_complete cfg = false ∨ w_system w (commands m) ping_command ≠ 0 →
  let r := keycloak_oauth_init cfg w m in
  r.1 = Ok (Jsonify
              (init_error_body
                 (if config_complete cfg then "Network issues with Keycloak"
                  else if keycloak_configured cfg then "APP_ORIGIN not configured"
                  else "Keycloak not configured")) 500)
  ∧ session r.2 = session m
  ∧ draws r.2 = draws m
  ∧ pending_kept m r.2.
Proof.
  intros H r. subst r.
  destruct (config_complete cfg) eqn:Hc.
  - destruct H as [? | Hping]; [done|]. by rewrite init_unreachable.
  - unfold config_complete in Hc. destruct (keycloak_configured cfg) eqn:Hk.
    + by rewrite init_no_origin.
    + by rewrite init_not_configured.
Qed.

Lemma init_failure_stores_nothing_witness :
  (let r := keycloak_oauth_init Scenario.cfg_no_realm Scenario.world_ok Scenario.fresh in
   r.1 = Ok (Jsonify (init_error_body "Keycloak not configured") 500)
   ∧ session r.2 = session Scenario.fresh
   ∧ draws r.2 = draws Scenario.fresh
   ∧ pending_kept Scenario.fresh r.2)
  ∧ (let r := keycloak_oauth_init Scenario.cfg Scenario.world_no_ping Scenario.fresh in
     r.1 = Ok (Jsonify (init_error_body "Network issues with Keycloak") 500)
     ∧ session r.2 = session Scenario.fresh
     ∧ draws r.2 = draws Scenario.fresh
     ∧ pending_kept Scenario.fresh r.2).
Proof.
  split.
  - apply (init_failure_stores_nothing Scenario.cfg_no_realm Scenario.world_ok
             Scenario.fresh).
    left. reflexivity.
  - apply (init_failure_stores_nothing Scenario.cfg Scenario.world_no_ping
             Scenario.fresh).
    right. simpl. lia.
Defined.

(** C10. The JSON body of a successful initiation carries, beside the
    authorization URL, a [state] field whose value is the very token the
    session stores as the pending flow's state. *)
Theorem init_response_discloses_state cfg w m :
  config_complete cfg = true → w_system w (commands m) ping_command = 0 →
  let r := keycloak_oauth_init cfg w m in
  ∃ S U,
    r.1 = Ok (Jsonify (init_success_body U S) 200)
    ∧ init_success_body U S !! "auth_url" = Some (VStr U)
    ∧ init_success_body U S !! "state" = Some (VStr S)
    ∧ session r.2 !! "keycloak_state" = Some (VStr S).
Proof.
  intros Hc Hping r. subst r. rewrite init_success by done.
  eexists _, _. split; [done|]. simpl. by simplify_map_eq.
Qed.

Lemma init_response_discloses_state_witness :
  let r := keycloak_oauth_init Scenario.cfg Scenario.world_ok Scenario.fresh in
  ∃ S U,
    r.1 = Ok (Jsonify (init_success_body U S) 200)
    ∧ init_success_body U S !! "auth_url" = Some (VStr U)
    ∧ init_success_body U S !! "state" = Some (VStr S)
    ∧ session r.2 !! "keycloak_state" = Some (VStr S).
Proof.
  apply (init_response_discloses_state Scenario.cfg Scenario.world_ok Scenario.fresh);
    reflexivity.
Defined.

(** ** Query strings: [parse_qsl] inverts [urlencode] *)

Lemma append_nil_l (s : string) : "" +:+ s = s.
Proof. reflexivity. Qed.

Lemma append_cons c (a b : string) : String c a +:+ b = String c (a +:+ b).
Proof. reflexivity. Qed.

Ltac unfold_append := rewrite ?append_nil_l, ?append_cons.

Lemma replace_char_app a b (x y : string) :
  urllib.replace_char a b (x +:+ y)
  = urllib.replace_char a b x +:+ urllib.replace_char a b y.
Proof. induction x as [|c x IH]; simpl; unfold_append; simpl; congruence. Qed.

Lemma has_char_app a (x y : string) :
  urllib.has_char a (x +:+ y) = urllib.has_char a x || urllib.has_char a y.
Proof.
  induction x as [|c x IH]; simpl; unfold_append; simpl; [done|].
  by rewrite IH, orb_assoc.
Qed.

Ltac each_byte c :=
  destruct c as [[] [] [] [] [] [] [] []].

(** With a space declared safe and then replaced, [quote] writes what
    [plus_quoter] writes. *)
Lemma replace_quoter_space c :
  urllib.replace_char " "%char "+"%char (urllib.quoter [" "%char] c) = plus_quoter c.
Proof. each_byte c; reflexivity. Qed.

Lemma quoter_not_space c :
  Ascii.eqb c " "%char = false → urllib.quoter [] c = plus_quoter c.
Proof. intros H. unfold plus_quoter. by rewrite H. Qed.

Lemma quote_plus_plus_quoted s : urllib.quote_plus s = plus_quoted s.
Proof.
  unfold urllib.quote_plus. destruct (urllib.has_char " "%char s) eqn:Hsp; simpl.
  - clear Hsp. induction s as [|c s IH]; simpl; [done|].
    by rewrite replace_char_app, replace_quoter_space, IH.
  - induction s as [|c s IH]; simpl in *; [done|].
    apply orb_false_elim in Hsp as [Hc Hs].
    by rewrite quoter_not_space, IH.
Qed.

Lemma unquote_literal c t :
  Ascii.eqb c "%"%char = false →
  urlparse.unquote (String c t) = String c (urlparse.unquote t).
Proof.
  intros H. destruct t as [|h [|l t]]; cbn [urlparse.unquote]; by rewrite ?H.
Qed.

Lemma hex_digit_cases (P : N → Prop) :
  P 0%N → P 1%N → P 2%N → P 3%N → P 4%N → P 5%N → P 6%N → P 7%N →
  P 8%N → P 9%N → P 10%N → P 11%N → P 12%N → P 13%N → P 14%N → P 15%N →
  ∀ n, (n < 16)%N → P n.
Proof.
  intros. destruct n as [|p]; [done|].
  do 4 (destruct p as [p|p|]; try done); lia.
Qed.

Lemma hex_value_digit n :
  (n < 16)%N → urlparse.hex_value (urllib.hex_digit n) = Some n.
Proof. revert n. apply hex_digit_cases; reflexivity. Qed.

Lemma hex_digit_not_plus n :
  (n < 16)%N → Ascii.eqb (urllib.hex_digit n) "+"%char = false.
Proof. revert n. apply hex_digit_cases; reflexivity. Qed.

Lemma unquote_escape hi lo t :
  (hi < 16)%N → (lo < 16)%N →
  urlparse.unquote
    (String "%"%char (String (urllib.hex_digit hi) (String (urllib.hex_digit lo) t)))
  = String (ascii_of_N (16 * hi + lo)) (urlparse.unquote t).
Proof.
  intros Hhi Hlo. cbn [urlparse.unquote].
  by rewrite Ascii.eqb_refl, !hex_value_digit.
Qed.

Lemma always_safe_differs c x :
  urllib.always_safe x = false → urllib.always_safe c = true → Ascii.eqb c x = false.
Proof.
  intros Hx Hc. destruct (Ascii.eqb c x) eqn:E; [|done].
  apply Ascii.eqb_eq in E. congruence.
Qed.

(** Decoding what was written for one byte gives the byte back. *)
Lemma unquote_plus_quoter c t :
  urlparse.unquote (urllib.replace_char "+"%char " "%char (plus_quoter c) +:+ t)
  = String c (urlparse.unquote t).
Proof.
  unfold plus_quoter. destruct (Ascii.eqb c " "%char) eqn:Hsp.
  { apply Ascii.eqb_eq in Hsp as ->. by apply unquote_literal. }
  unfold urllib.quoter. cbn [existsb]. rewrite orb_false_r.
  destruct (urllib.always_safe c) eqn:Hsafe.
  - cbn [urllib.replace_char].
    rewrite (always_safe_differs c "+"%char) by done.
    apply unquote_literal. by apply always_safe_differs.
  - pose proof (N_ascii_bounded c) as Hc.
    assert (Hhi : (N_of_ascii c / 16 < 16)%N)
      by (apply N.Div0.div_lt_upper_bound; lia).
    assert (Hlo : (N_of_ascii c mod 16 < 16)%N) by (apply N.mod_lt; lia).
    cbn [urllib.replace_char]. rewrite !hex_digit_not_plus by done.
    change (Ascii.eqb "%"%char "+"%char) with false. cbv iota.
    unfold_append. rewrite unquote_escape by done.
    rewrite <- N.div_mod by lia. by rewrite ascii_N_embedding.
Qed.

Lemma unquote_plus_quoted s : urlparse.unquote_plus (plus_quoted s) = s.
Proof.
  unfold urlparse.unquote_plus. induction s as [|c s IH]; simpl; [done|].
  by rewrite replace_char_app, unquote_plus_quoter, IH.
Qed.

Lemma plus_quoter_no_separator c :
  urllib.has_char "&"%char (plus_quoter c) = false
  ∧ urllib.has_char "="%char (plus_quoter c) = false.
Proof. each_byte c; split; reflexivity. Qed.

Lemma plus_quoted_no_separator s :
  urllib.has_char "&"%char (plus_quoted s) = false
  ∧ urllib.has_char "="%char (plus_quoted s) = false.
Proof.
  induction s as [|c s [IH1 IH2]]; simpl; [done|].
  rewrite !has_char_app, IH1, IH2.
  by destruct (plus_quoter_no_separator c) as [-> ->].
Qed.

Lemma split_once_at sep (x y : string) :
  urllib.has_char sep x = false →
  urlparse.split_once sep (x +:+ String sep y) = (x, y).
Proof.
  induction x as [|c x IH]; simpl; unfold_append; simpl.
  - by rewrite Ascii.eqb_refl.
  - intros [Hc Hx]%orb_false_elim. by rewrite Hc, IH.
Qed.

Lemma split_whole sep (x : string) :
  urllib.has_char sep x = false → urlparse.split sep x = [x].
Proof.
  induction x as [|c x IH]; simpl; [done|].
  intros [Hc Hx]%orb_false_elim. by rewrite Hc, IH.
Qed.

Lemma split_at sep (x y : string) :
  urllib.has_char sep x = false →
  urlparse.split sep (x +:+ String sep y) = x :: urlparse.split sep y.
Proof.
  induction x as [|c x IH]; simpl; unfold_append; simpl.
  - by rewrite Ascii.eqb_refl.
  - intros [Hc Hx]%orb_false_elim. by rewrite Hc, IH.
Qed.

Lemma encoded_pair_no_amp kv : urllib.has_char "&"%char (encoded_pair kv) = false.
Proof.
  unfold encoded_pair. rewrite !quote_plus_plus_quoted, !has_char_app.
  destruct (plus_quoted_no_separator kv.1) as [-> _].
  by destruct (plus_quoted_no_separator kv.2) as [-> _].
Qed.

Lemma split_join_amp (l : list (string * string)) :
  l ≠ [] →
  urlparse.split "&"%char (urllib.join_amp (encoded_pair <$> l)) = encoded_pair <$> l.
Proof.
  induction l as [|kv [|kv' l] IH]; [done | |]; intros _.
  - simpl. apply split_whole, encoded_pair_no_amp.
  - change (urllib.join_amp (encoded_pair <$> kv :: kv' :: l))
      with (encoded_pair kv +:+ String "&"%char
              (urllib.join_amp (encoded_pair <$> kv' :: l))).
    rewrite split_at by apply encoded_pair_no_amp.
    by rewrite IH.
Qed.

Lemma parse_encoded_pair kv : urlparse.parse_pair (encoded_pair kv) = [kv].
Proof.
  destruct kv as [k v]. unfold urlparse.parse_pair, encoded_pair. simpl fst. simpl snd.
  rewrite !quote_plus_plus_quoted, append_cons, append_nil_l.
  rewrite split_once_at by apply plus_quoted_no_separator.
  rewrite !unquote_plus_quoted.
  by destruct (plus_quoted k).
Qed.

(** [parse_qsl] reads back the pairs [urlencode] wrote, in order. *)
Lemma parse_qsl_urlencode (query : list (string * string)) :
  urlparse.parse_qsl (urllib.urlencode query) = query.
Proof.
  unfold urlparse.parse_qsl, urllib.urlencode.
  destruct (decide (query = [])) as [-> | Hne]; [done|].
  change (λ kv : string * string, urllib.quote_plus kv.1 +:+ "=" +:+ urllib.quote_plus kv.2)
    with encoded_pair.
  rewrite split_join_amp by done. clear Hne.
  induction query as [|kv query IH]; [done|].
  by rewrite fmap_cons, bind_cons, IH, parse_encoded_pair.
Qed.

(** C7. A flow initiation with the four settings present and the
    provider answering the probe returns status 200 with an authorization
    URL made of the provider's authorization endpoint, a question mark and
    a query string whose parameters are client_id, response_type=code,
    redirect_uri, scope, state S, code_challenge C and
    code_challenge_method=S256; afterwards the session stores S as the
    state and a verifier V whose S256 challenge is C: the challenge the
    code derives from V, which is the base64url text, without padding, of
    the SHA-256 digest of the bytes of V. *)
Theorem init_builds_authorization_request cfg w m :
  config_complete cfg = true → w_system w (commands m) ping_command = 0 →
  let r := keycloak_oauth_init cfg w m in
  ∃ S V C query,
    r.1 = Ok (Jsonify (init_success_body (authorization_endpoint cfg +:+ "?" +:+ query) S) 200)
    ∧ urlparse.parse_qsl query = authorization_params cfg S C
    ∧ session r.2 !! "keycloak_state" = Some (VStr S)
    ∧ session r.2 !! "keycloak_code_verifier" = Some (VStr V)
    ∧ generate_code_challenge V = Ok C
    ∧ C = b64_text (hashlib.sha256 (String.list_byte_of_string V)).
Proof.
  intros Hc Hping r. subst r. rewrite init_success by done.
  eexists _, _, _, _. split; [done|].
  split; [apply parse_qsl_urlencode|]. cbn [snd session].
  split; [by simplify_map_eq|]. split; [by simplify_map_eq|].
  split; [apply generate_code_challenge_total | apply s256_of_b64_text].
Qed.

Lemma init_builds_authorization_request_witness :
  let r := keycloak_oauth_init Scenario.cfg Scenario.world_ok Scenario.fresh in
  ∃ S V C query,
    r.1 = Ok (Jsonify (init_success_body
                         (authorization_endpoint Scenario.cfg +:+ "?" +:+ query) S) 200)
    ∧ urlparse.parse_qsl query = authorization_params Scenario.cfg S C
    ∧ session r.2 !! "keycloak_state" = Some (VStr S)
    ∧ session r.2 !! "keycloak_code_verifier" = Some (VStr V)
    ∧ generate_code_challenge V = Ok C
    ∧ C = b64_text (hashlib.sha256 (String.list_byte_of_string V)).
Proof.
  apply (init_builds_authorization_request Scenario.cfg Scenario.world_ok Scenario.fresh);
    reflexivity.
Defined.

(** * Further properties of the handlers *)

(** ** The guards of the callback, one by one *)

(** X1. A callback that carries a provider error parameter stops at
    once, whatever its state and code: it flashes the provider's
    description, or the error code when there is no description, makes no
    outbound call and leaves the session as it was. *)
Theorem provider_error_takes_precedence cfg w args m error :
  args !! "error" = Some error → str_truthy error = true →
  let r := keycloak_oauth_callback cfg w args m in
  let description := default "" (args !! "error_description") in
  r.1 = Ok (Redirect "/")
  ∧ flashes r.2
    = flashes m ++ [("error", [Lit "Ошибка авторизации Keycloak: ";
                               Val (VStr (if str_truthy description
                                          then description else error))])]
  ∧ session r.2 = session m
  ∧ sent r.2 = sent m.
Proof.
  intros Herr Ht r description. subst r description.
  rewrite callback_provider_error by (by rewrite Herr).
  unfold provider_error_message, py_or. rewrite Herr. simpl.
  by destruct (str_truthy (default "" (args !! "error_description"))).
Qed.

Lemma provider_error_takes_precedence_witness :
  let r := keycloak_oauth_callback Scenario.cfg Scenario.world_ok
             Scenario2.args_denied_with_state Scenario.pending in
  r.1 = Ok (Redirect "/")
  ∧ flashes r.2
    = flashes Scenario.pending
      ++ [("error", [Lit "Ошибка авторизации Keycloak: ";
                     Val (VStr "User denied access")])]
  ∧ session r.2 = session Scenario.pending
  ∧ sent r.2 = sent Scenario.pending.
Proof.
  apply (provider_error_takes_precedence Scenario.cfg Scenario.world_ok
           Scenario2.args_denied_with_state Scenario.pending "access_denied");
    reflexivity.
Defined.

Lemma callback_state_accepted cfg w args m :
  no_provider_error args → state_matches args m →
  keycloak_oauth_callback cfg w args m
  = match args !! "code" with
    | None | Some EmptyString =>
        (Ok (Redirect "/"), add_flash ("error", missing_code_message) m)
    | Some code =>
        let code_verifier := default VNone (session m !! "keycloak_code_verifier") in
        if negb (truthy code_verifier)
        then (Ok (Redirect "/"), add_flash ("error", missing_verifier_message) m)
        else try_except_RequestException
               (exchange_and_finalize cfg w code code_verifier) api_error m
    end.
Proof.
  intros Herr (s & Hs & Hst & Hstored).
  unfold keycloak_oauth_callback. rewrite Herr, Hst. cbv zeta.
  erewrite bind_ok by reflexivity. rewrite Hstored. simpl.
  rewrite Hs, bool_decide_true by done. simpl.
  destruct (args !! "code") as [[|c code]|]; try done.
  erewrite bind_ok by reflexivity.
  by destruct (negb (truthy (default VNone (session m !! "keycloak_code_verifier")))).
Qed.

(** X2. A callback whose state matches but whose code is absent or
    empty fails with the missing-code error before any outbound call; the
    session is unchanged. *)
Theorem missing_code_fails_before_any_call cfg w args m :
  no_provider_error args → state_matches args m →
  args !! "code" = None ∨ args !! "code" = Some "" →
  let r := keycloak_oauth_callback cfg w args m in
  r.1 = Ok (Redirect "/")
  ∧ flashes r.2 = flashes m ++ [("error", missing_code_message)]
  ∧ session r.2 = session m
  ∧ sent r.2 = sent m.
Proof.
  intros Herr Hst Hcode r. subst r. rewrite callback_state_accepted by done.
  by destruct Hcode as [-> | ->].
Qed.

Lemma missing_code_fails_before_any_call_witness :
  let r := keycloak_oauth_callback Scenario.cfg Scenario.world_ok
             Scenario2.args_no_code Scenario.pending in
  r.1 = Ok (Redirect "/")
  ∧ flashes r.2 = flashes Scenario.pending ++ [("error", missing_code_message)]
  ∧ session r.2 = session Scenario.pending
  ∧ sent r.2 = sent Scenario.pending.
Proof.
  apply (missing_code_fails_before_any_call Scenario.cfg Scenario.world_ok
           Scenario2.args_no_code Scenario.pending).
  - reflexivity.
  - exists "S". repeat split; reflexivity.
  - left. reflexivity.
Defined.

(** X3. A callback whose state matches and which carries a code, in a
    session without a stored verifier (or with an empty one), fails with
    the missing-verifier error before any outbound call; the session is
    unchanged. *)
Theorem missing_verifier_fails_before_any_call cfg w args m code :
  no_provider_error args → state_matches args m →
  args !! "code" = Some code → str_truthy code = true →
  truthy (default VNone (session m !! "keycloak_code_verifier")) = false →
  let r := keycloak_oauth_callback cfg w args m in
  r.1 = Ok (Redirect "/")
  ∧ flashes r.2 = flashes m ++ [("error", missing_verifier_message)]
  ∧ session r.2 = session m
  ∧ sent r.2 = sent m.
Proof.
  intros Herr Hst Hcode Hc Hv r. subst r. rewrite callback_state_accepted by done.
  rewrite Hcode. destruct code as [|c code]; [discriminate Hc|]. cbv zeta. by rewrite Hv.
Qed.

Lemma missing_verifier_fails_before_any_call_witness :
  let r := keycloak_oauth_callback Scenario.cfg Scenario.world_ok
             Scenario.args_ok Scenario2.pending_no_verifier in
  r.1 = Ok (Redirect "/")
  ∧ flashes r.2
    = flashes Scenario2.pending_no_verifier ++ [("error", missing_verifier_message)]
  ∧ session r.2 = session Scenario2.pending_no_verifier
  ∧ sent r.2 = sent Scenario2.pending_no_verifier.
Proof.
  apply (missing_verifier_fails_before_any_call Scenario.cfg Scenario.world_ok
           Scenario.args_ok Scenario2.pending_no_verifier "c1").
  - reflexivity.
  - exists "S". repeat split; reflexivity.
  - reflexivity.
  - reflexivity.
  - reflexivity.
Defined.

(** X4. When the token request fails in the transport, or its body
    cannot be decoded, with a [requests] exception, the callback reports
    the API error carrying the exception's text, after that single
    call; the session is unchanged. *)
Theorem exchange_transport_failure_is_reported cfg w args m code v cls msg :
  passes_guards args m code v →
  w_send w (sent m) (token_request cfg code v) = Raise (RequestException cls msg)
  ∨ (∃ resp, w_send w (sent m) (token_request cfg code v) = Ok resp
             ∧ rs_json resp = Raise (RequestException cls msg)) →
  let r := keycloak_oauth_callback cfg w args m in
  r.1 = Ok (Redirect "/")
  ∧ flashes r.2 = flashes m ++ [("error", Lit "Ошибка API: " :: msg)]
  ∧ session r.2 = session m
  ∧ sent r.2 = sent m ++ [token_request cfg code v].
Proof.
  intros Hg Hfail r. subst r. rewrite (callback_passes_guards _ _ _ _ _ _ Hg).
  assert (Hrun : exchange_and_finalize cfg w code v m
                 = (Raise (RequestException cls msg),
                    add_sent (token_request cfg code v) m)).
  { unfold exchange_and_finalize.
    destruct Hfail as [Hsend | (resp & Hsend & Hjson)].
    - apply bind_raise. by apply http_send_raise.
    - erewrite bind_ok by (by apply http_send_ok).
      apply bind_raise. unfold response_json, lift. by rewrite Hjson. }
  by rewrite (try_except_caught _ _ _ _ _ _ Hrun).
Qed.

Lemma exchange_transport_failure_is_reported_witness :
  let r := keycloak_oauth_callback Scenario.cfg Scenario2.world_token_unreachable
             Scenario.args_ok Scenario.pending in
  r.1 = Ok (Redirect "/")
  ∧ flashes r.2
    = flashes Scenario.pending ++ [("error", [Lit "Ошибка API: "; Lit "connection refused"])]
  ∧ session r.2 = session Scenario.pending
  ∧ sent r.2 = sent Scenario.pending ++ [token_request Scenario.cfg "c1" (VStr "V")].
Proof.
  apply (exchange_transport_failure_is_reported Scenario.cfg
           Scenario2.world_token_unreachable Scenario.args_ok Scenario.pending
           "c1" (VStr "V") "ConnectionError" [Lit "connection refused"]).
  - split; [reflexivity | exists "S"; repeat split; reflexivity
           | split; reflexivity | split; reflexivity].
  - left. reflexivity.
Defined.

(** X5. A token response whose body is valid JSON but not an object
    (an array, a string, a number, null) is not handled: the callback
    ends with a TypeError or an AttributeError that its handler does not
    catch, nothing is flashed and the session is unchanged. *)
Theorem non_object_token_response_escapes cfg w args m code v resp body :
  passes_guards args m code v →
  w_send w (sent m) (token_request cfg code v) = Ok resp →
  rs_json resp = Ok body →
  (∀ d, body ≠ VDict d) →
  let r := keycloak_oauth_callback cfg w args m in
  (∃ cls msg, r.1 = Raise (PyException cls msg)
              ∧ (cls = "TypeError" ∨ cls = "AttributeError"))
  ∧ flashes r.2 = flashes m
  ∧ session r.2 = session m
  ∧ sent r.2 = sent m ++ [token_request cfg code v].
Proof.
  intros Hg Hsend Hjson Hbody r. subst r.
  rewrite (callback_passes_guards _ _ _ _ _ _ Hg).
  assert (∃ cls msg,
    exchange_and_finalize cfg w code v m
    = (Raise (PyException cls msg), add_sent (token_request cfg code v) m)
    ∧ (cls = "TypeError" ∨ cls = "AttributeError")) as (cls & msg & Hrun & Hcls).
  { unfold exchange_and_finalize.
    erewrite bind_ok by (by apply http_send_ok).
    erewrite bind_ok by (unfold response_json, lift; by rewrite Hjson).
    destruct body as [| | | t | l | d]; try (eexists _, _; split; [reflexivity | auto]).
    - erewrite bind_ok by reflexivity.
      destruct (str_contains "error" t); eexists _, _; split; try reflexivity; auto.
    - erewrite bind_ok by reflexivity.
      destruct (existsb (str_eq "error") l); eexists _, _; split; try reflexivity; auto.
    - by destruct (Hbody d). }
  erewrite try_except_escapes by exact Hrun. simpl. eauto 10.
Qed.

Lemma non_object_token_response_escapes_witness :
  let r := keycloak_oauth_callback Scenario.cfg Scenario2.world_token_array
             Scenario.args_ok Scenario.pending in
  (∃ cls msg, r.1 = Raise (PyException cls msg)
              ∧ (cls = "TypeError" ∨ cls = "AttributeError"))
  ∧ flashes r.2 = flashes Scenario.pending
  ∧ session r.2 = session Scenario.pending
  ∧ sent r.2 = sent Scenario.pending ++ [token_request Scenario.cfg "c1" (VStr "V")].
Proof.
  apply (non_object_token_response_escapes Scenario.cfg Scenario2.world_token_array
           Scenario.args_ok Scenario.pending "c1" (VStr "V")
           {| status_code := 200; reason := "OK"; rs_url := Scenario.token_url;
              rs_json := Ok (VList [VStr "unexpected"]) |}
           (VList [VStr "unexpected"])).
  - split; [reflexivity | exists "S"; repeat split; reflexivity
           | split; reflexivity | split; reflexivity].
  - reflexivity.
  - reflexivity.
  - intros d. discriminate.
Defined.

(** ** What a callback can touch *)

Section Respects.

Context (R : relation machine) `{!PreOrder R}.

Lemma respects_ret {A} (a : A) : respects R (mret a).
Proof. intros m r m' H. inversion H. reflexivity. Qed.

Lemma respects_raise {A} e : respects R (raise (A := A) e).
Proof. intros m r m' H. inversion H. reflexivity. Qed.

Lemma respects_lift {A} (o : outcome A) : respects R (lift o).
Proof. intros m r m' H. inversion H. reflexivity. Qed.

Lemma respects_bind {A B} (c : M A) (f : A → M B) :
  respects R c → (∀ a, respects R (f a)) → respects R (c ≫= f).
Proof.
  intros Hc Hf m r m' H.
  apply bind_inv in H as [(a & m1 & H1 & H2) | (e & H1 & ->)].
  - etrans; [by eapply Hc | by eapply Hf].
  - by eapply Hc.
Qed.

Lemma respects_try {A} (body : M A) handler :
  respects R body → (∀ e, respects R (handler e)) →
  respects R (try_except_RequestException body handler).
Proof.
  intros Hb Hh m r m' H. unfold try_except_RequestException in H.
  destruct (body m) as [[a|[cls msg|cls msg]] m1] eqn:E.
  - inversion H; subst. by eapply Hb.
  - etrans; [by eapply Hb | by eapply Hh].
  - inversion H; subst. by eapply Hb.
Qed.

Lemma respects_get v key dflt : respects R (py_get_default v key dflt).
Proof.
  destruct v; simpl; first [apply respects_raise | apply respects_ret].
Qed.

Lemma respects_in key v : respects R (py_in key v).
Proof.
  destruct v; simpl; first [apply respects_raise | apply respects_ret].
Qed.

Lemma respects_raise_for_status r : respects R (raise_for_status r).
Proof.
  unfold raise_for_status.
  repeat case_match; first [apply respects_raise | apply respects_ret].
Qed.

Lemma respects_session_get key : respects R (session_get key).
Proof. intros m r m' H. inversion H. reflexivity. Qed.

(** The effects of the callback's primitives, assumed related by [R]. *)
Hypothesis R_send : ∀ rq m, R m (add_sent rq m).
Hypothesis R_flash : ∀ f m, R m (add_flash f m).
Hypothesis R_set : ∀ k v m,
  k ∈ callback_keys → R m (with_session (<[k:=v]> (session m)) m).
Hypothesis R_pop : ∀ k m,
  k ∈ callback_keys → R m (with_session (delete k (session m)) m).

Lemma respects_send w rq : respects R (http_send w rq).
Proof.
  intros m r m' H. unfold http_send in H.
  destruct (w_send w (sent m) rq); inversion H; apply R_send.
Qed.

Lemma respects_flash message category : respects R (flash message category).
Proof. intros m r m' H. inversion H. apply R_flash. Qed.

Lemma respects_session_set k v :
  k ∈ callback_keys → respects R (session_set k v).
Proof. intros Hk m r m' H. inversion H. by apply R_set. Qed.

Lemma respects_session_pop k :
  k ∈ callback_keys → respects R (session_pop k).
Proof. intros Hk m r m' H. inversion H. by apply R_pop. Qed.

Ltac respects_step :=
  first
    [ apply respects_ret | apply respects_raise | apply respects_lift
    | apply respects_send | apply respects_flash | apply respects_get
    | apply respects_in | apply respects_raise_for_status
    | apply respects_session_get
    | apply respects_session_set; unfold callback_keys; set_solver
    | apply respects_session_pop; unfold callback_keys; set_solver
    | apply respects_bind; [| intros ?]
    | apply respects_try; [| intros ?]
    | case_match ].

Lemma respects_cloud_token cfg w : respects R (get_access_token_from_cloud cfg w).
Proof.
  unfold get_access_token_from_cloud, response_json, py_get. repeat respects_step.
Qed.

Lemma respects_vms cfg w p : respects R (get_all_vms_in_cloud cfg w p).
Proof.
  unfold get_all_vms_in_cloud, response_json.
  apply respects_bind; [apply respects_cloud_token | intros ?].
  repeat respects_step.
Qed.

Lemma respects_user_info cfg w tok : respects R (fetch_user_info cfg w tok).
Proof. unfold fetch_user_info, response_json. repeat respects_step. Qed.

Lemma respects_identify cfg w tok : respects R (identify_and_finalize cfg w tok).
Proof.
  unfold identify_and_finalize, py_get.
  apply respects_bind; [apply respects_user_info | intros user_info].
  apply respects_bind; [apply respects_get | intros p].
  apply respects_bind; [apply respects_vms | intros ?].
  do 2 (apply respects_bind; [respects_step | intros ?]).
  apply respects_bind; [| intros ?; repeat respects_step].
  case_match; [| apply respects_ret].
  do 7 (apply respects_bind; [repeat respects_step | intros ?]).
  apply respects_bind; [apply respects_vms | intros ?]. respects_step.
Qed.

Lemma respects_exchange cfg w code v : respects R (exchange_and_finalize cfg w code v).
Proof.
  unfold exchange_and_finalize, response_json, py_get.
  do 3 (apply respects_bind; [respects_step | intros ?]).
  case_match; [repeat respects_step|].
  apply respects_bind; [respects_step | intros ?].
  case_match; [repeat respects_step | apply respects_identify].
Qed.

Lemma respects_callback cfg w args : respects R (keycloak_oauth_callback cfg w args).
Proof.
  unfold keycloak_oauth_callback. cbv zeta.
  case_match; [repeat respects_step|].
  apply respects_bind; [respects_step | intros ?].
  case_match; [repeat respects_step|].
  case_match; [|repeat respects_step].
  case_match; [repeat respects_step|].
  apply respects_bind; [respects_step | intros ?].
  case_match; [repeat respects_step|].
  apply respects_try; [apply respects_exchange | intros e].
  unfold api_error. repeat respects_step.
Qed.

End Respects.

#[local] Instance callback_footprint_preorder : PreOrder callback_footprint.
Proof.
  split.
  - intros m. unfold callback_footprint. repeat split; try done; by (exists []; rewrite app_nil_r).
  - intros m1 m2 m3 (Hk & [l Hl] & [f Hf] & Hc & Hd) (Hk' & [l' Hl'] & [f' Hf'] & Hc' & Hd').
    split; [|split; [|split; [|split]]].
    + intros k Hnot. by rewrite Hk', Hk.
    + exists (l ++ l'). by rewrite Hl', Hl, app_assoc.
    + exists (f ++ f'). by rewrite Hf', Hf, app_assoc.
    + congruence.
    + congruence.
Qed.

(** X6. Whatever the request and whatever the provider and the cloud
    answer, a callback changes the session at no key other than
    is_authed, auth_provider, user_email, user_name,
    user_cloud_project_id, all_vms, keycloak_state and
    keycloak_code_verifier (the access token, for one, is never stored);
    it only appends to the flashed messages and to the outbound requests,
    runs no command and draws no random token. *)
Theorem callback_touches_only_its_keys cfg w args m :
  callback_footprint m (keycloak_oauth_callback cfg w args m).2.
Proof.
  destruct (keycloak_oauth_callback cfg w args m) as [r m'] eqn:E.
  eapply (respects_callback callback_footprint); [| | | | exact E].
  - intros rq m0. unfold callback_footprint. simpl.
    repeat split; try done; [by eexists | by (exists []; rewrite app_nil_r)].
  - intros f m0. unfold callback_footprint. simpl.
    repeat split; try done; [by (exists []; rewrite app_nil_r) | by eexists].
  - intros k v m0 Hk. unfold callback_footprint. simpl.
    repeat split; try done; [| by (exists []; rewrite app_nil_r) | by (exists []; rewrite app_nil_r)].
    intros k' Hk'. apply lookup_insert_ne. set_solver.
  - intros k m0 Hk. unfold callback_footprint. simpl.
    repeat split; try done; [| by (exists []; rewrite app_nil_r) | by (exists []; rewrite app_nil_r)].
    intros k' Hk'. apply lookup_delete_ne. set_solver.
Qed.

Lemma callback_catches_request_exceptions cfg w args m cls msg :
  (keycloak_oauth_callback cfg w args m).1 ≠ Raise (RequestException cls msg).
Proof.
  destruct (truthy (of_arg (args !! "error"))) eqn:Herr.
  { by rewrite callback_provider_error. }
  destruct (negb (truthy (of_arg (args !! "state")))
            || arg_ne (args !! "state") (default VNone (session m !! "keycloak_state")))
    eqn:Hst.
  { by rewrite callback_state_rejected. }
  unfold keycloak_oauth_callback. rewrite Herr. cbv zeta.
  erewrite bind_ok by reflexivity. rewrite Hst.
  destruct (args !! "code") as [[|c code]|]; try done.
  erewrite bind_ok by reflexivity.
  destruct (negb (truthy (default VNone (session m !! "keycloak_code_verifier"))));
    [done|].
  unfold try_except_RequestException.
  by destruct (exchange_and_finalize _ _ _ _ m) as [[a|[c0 m0|c0 m0]] m1].
Qed.

(** X7. A callback never lets a [requests] exception reach its caller:
    either it returns the redirect to the index page, having flashed
    exactly one message, or it ends with an exception of another class,
    having flashed nothing. *)
Theorem callback_redirects_or_escapes cfg w args m :
  let r := keycloak_oauth_callback cfg w args m in
  (r.1 = Ok (Redirect "/") ∧ ∃ f, flashes r.2 = flashes m ++ [f])
  ∨ (∃ cls msg, r.1 = Raise (PyException cls msg) ∧ flashes r.2 = flashes m).
Proof.
  intros r. subst r.
  destruct (callback_outcome cfg w args m)
    as [(e & He & Hf & _) | [[[Hr [msg Hf]] _] | ([Hr Hf] & _)]].
  - destruct e as [cls msg | cls msg]; [|right; by eauto].
    by destruct (callback_catches_request_exceptions cfg w args m cls msg).
  - left. eauto.
  - left. eauto.
Qed.

(** ** The resource counter when it succeeds *)

Lemma lookup_returns_run cfg w p tok total m :
  lookup_returns cfg w (sent m) p tok total →
  get_all_vms_in_cloud cfg w p m
  = (Ok total, add_sent (vms_request p tok) (add_sent (cloud_token_request cfg) m)).
Proof.
  intros (r & d & r' & d' & Hsend & Hst & Hj & -> & Hsend' & Hst' & Hj' & ->).
  unfold get_all_vms_in_cloud.
  erewrite bind_ok.
  2:{ unfold get_access_token_from_cloud.
      erewrite bind_ok by (by apply http_send_ok).
      erewrite bind_ok by (by apply raise_for_status_pass).
      erewrite bind_ok by (unfold response_json, lift; by rewrite Hj).
      by erewrite bind_ok by reflexivity. }
  erewrite bind_ok by (by apply http_send_ok).
  erewrite bind_ok by (by apply raise_for_status_pass).
  erewrite bind_ok by (unfold response_json, lift; by rewrite Hj').
  by erewrite bind_ok by reflexivity.
Qed.

(** X8. When both cloud calls answer a JSON object with a status
    outside 400-599, the resource counter returns the inventory's [total]
    field, or 0 when the answer has none, after exactly two requests: the
    service-token request and the inventory request, whose bearer is the
    service token's [access_token] even when that field is missing
    ([None] is interpolated). Session and flashed messages are
    untouched. *)
Theorem resource_lookup_returns_total cfg w p tok total m :
  lookup_returns cfg w (sent m) p tok total →
  let r := get_all_vms_in_cloud cfg w p m in
  r.1 = Ok total
  ∧ sent r.2 = sent m ++ [cloud_token_request cfg; vms_request p tok]
  ∧ rq_headers (vms_request p tok) = [("Authorization", [Lit "Bearer "; Val tok])]
  ∧ session r.2 = session m
  ∧ flashes r.2 = flashes m.
Proof.
  intros H r. subst r. rewrite (lookup_returns_run _ _ _ _ _ _ H). simpl.
  by rewrite <- app_assoc.
Qed.

Lemma resource_lookup_returns_total_witness :
  let r := get_all_vms_in_cloud Scenario.cfg Scenario.world_no_total (VStr "P1")
             Scenario.fresh in
  r.1 = Ok (VInt 0)
  ∧ sent r.2 = sent Scenario.fresh
               ++ [cloud_token_request Scenario.cfg; vms_request (VStr "P1") (VStr "S1")]
  ∧ rq_headers (vms_request (VStr "P1") (VStr "S1"))
    = [("Authorization", [Lit "Bearer "; Val (VStr "S1")])]
  ∧ session r.2 = session Scenario.fresh
  ∧ flashes r.2 = flashes Scenario.fresh.
Proof.
  apply (resource_lookup_returns_total Scenario.cfg Scenario.world_no_total
           (VStr "P1") (VStr "S1") (VInt 0) Scenario.fresh).
  eexists _, _, _, _. repeat split; try reflexivity; simpl; lia.
Defined.

(** ** The callback when every step succeeds *)

Lemma truthy_claims u : u ≠ ∅ → truthy (VDict u) = true.
Proof.
  intros Hu. simpl. rewrite bool_decide_false; [done|].
  by rewrite dom_empty_iff_L.
Qed.

Lemma identity_block_run cfg w u (p : pyval) tok total m :
  u ≠ ∅ →
  lookup_returns cfg w (sent m) p tok total →
  (if truthy (VDict u) then
     email ← py_get (VDict u) "email";
     session_set "user_email" email;;
     preferred_username ← py_get (VDict u) "preferred_username";
     user_name ← (if truthy preferred_username then mret preferred_username
                  else py_get (VDict u) "name");
     session_set "user_name" user_name;;
     project ← py_get (VDict u) "cloud_project_id";
     session_set "user_cloud_project_id" project;;
     all_vms ← get_all_vms_in_cloud cfg w p;
     session_set "all_vms" all_vms
   else mret tt) m
  = (Ok tt,
     with_session
       (<["all_vms" := total]>
        (<["user_cloud_project_id" := claim u "cloud_project_id"]>
        (<["user_name" := py_or (claim u "preferred_username") (claim u "name")]>
        (<["user_email" := claim u "email"]> (session m)))))
       (add_sent (vms_request p tok) (add_sent (cloud_token_request cfg) m))).
Proof.
  intros Hu Hl. rewrite truthy_claims by done. unfold claim, py_or.
  erewrite bind_ok by reflexivity.
  erewrite bind_ok by reflexivity.
  erewrite bind_ok by reflexivity.
  destruct (truthy (default VNone (u !! "preferred_username")));
    erewrite bind_ok by reflexivity;
    erewrite bind_ok by reflexivity;
    erewrite bind_ok by reflexivity;
    erewrite bind_ok by reflexivity;
    erewrite bind_ok by (by apply lookup_returns_run);
    reflexivity.
Qed.

(** X9. When the guards pass, the exchange succeeds, the userinfo call
    returns non-empty claims and both resource-count lookups succeed, the
    callback finalizes: is_authed and auth_provider are set, the email,
    the name (preferred_username, or name when that is missing or empty)
    and the project are taken from the claims, all_vms is the count of
    the second lookup (the first is discarded), and the stored state and
    verifier are removed. Six requests are sent, in the order token,
    userinfo, service token, inventory, service token, inventory. *)
Theorem callback_finalizes cfg w args m code v tok u tok1 n1 tok2 n2 :
  passes_guards args m code v →
  exchange_succeeds cfg w m code v tok →
  identity_obtained w (sent m ++ [token_request cfg code v])
    (userinfo_request cfg tok) u →
  u ≠ ∅ →
  lookup_returns cfg w (log_after_identity cfg m code v tok)
    (claim u "cloud_project_id") tok1 n1 →
  lookup_returns cfg w
    (log_after_identity cfg m code v tok
       ++ [cloud_token_request cfg; vms_request (claim u "cloud_project_id") tok1])
    (claim u "cloud_project_id") tok2 n2 →
  let r := keycloak_oauth_callback cfg w args m in
  finalized m r
  ∧ session r.2 = finalized_session (session m) u n2
  ∧ sent r.2
    = log_after_identity cfg m code v tok
      ++ [cloud_token_request cfg; vms_request (claim u "cloud_project_id") tok1;
          cloud_token_request cfg; vms_request (claim u "cloud_project_id") tok2].
Proof.
  intros Hg Hex Hid Hu H1 H2 r. subst r.
  rewrite (callback_passes_guards _ _ _ _ _ _ Hg).
  unfold log_after_identity in *.
  erewrite try_except_ok.
  2:{ rewrite (exchange_reaches_identity _ _ _ _ _ _ Hex). unfold identify_and_finalize.
      erewrite bind_ok by (by apply fetch_user_info_claims).
      erewrite bind_ok by reflexivity.
      erewrite bind_ok
        by (apply lookup_returns_run; simpl; rewrite <- app_assoc; exact H1).
      erewrite bind_ok by reflexivity.
      erewrite bind_ok by reflexivity.
      erewrite bind_ok
        by (apply identity_block_run; [done|]; simpl; rewrite <- !app_assoc;
            rewrite <- !app_assoc in H2; exact H2).
      reflexivity. }
  split; [done|]. simpl. split; [done|]. by rewrite <- !app_assoc.
Qed.

Lemma callback_finalizes_witness :
  let m := Scenario.pending in
  let r := keycloak_oauth_callback Scenario.cfg Scenario.world_ok Scenario.args_ok m in
  finalized m r
  ∧ session r.2 = finalized_session (session m) Scenario.alice (VInt 7)
  ∧ sent r.2
    = log_after_identity Scenario.cfg m "c1" (VStr "V") (VStr "T1")
      ++ [cloud_token_request Scenario.cfg;
          vms_request (claim Scenario.alice "cloud_project_id") (VStr "S1");
          cloud_token_request Scenario.cfg;
          vms_request (claim Scenario.alice "cloud_project_id") (VStr "S1")].
Proof.
  apply (callback_finalizes Scenario.cfg Scenario.world_ok Scenario.args_ok
           Scenario.pending "c1" (VStr "V") (VStr "T1") Scenario.alice
           (VStr "S1") (VInt 7) (VStr "S1") (VInt 7)).
  - split; [reflexivity | exists "S"; repeat split; reflexivity
           | split; reflexivity | split; reflexivity].
  - eexists _, _. repeat split; reflexivity.
  - eexists. repeat split; reflexivity.
  - intros H. assert (Scenario.alice !! "email" = None) as H' by (by rewrite H).
    discriminate H'.
  - eexists _, _, _, _. repeat split; try reflexivity; simpl; lia.
  - eexists _, _, _, _. repeat split; try reflexivity; simpl; lia.
Defined.

(** X10. When the userinfo call answers 200 with an empty object, the
    callback still finalizes after one resource-count lookup: the
    session is marked authenticated with auth_provider keycloak, the
    stored state and verifier are removed, and no identity field and no
    all_vms is written. Four requests are sent. *)
Theorem empty_claims_finalize_without_identity cfg w args m code v tok tok1 n1 :
  passes_guards args m code v →
  exchange_succeeds cfg w m code v tok →
  identity_obtained w (sent m ++ [token_request cfg code v])
    (userinfo_request cfg tok) ∅ →
  lookup_returns cfg w (log_after_identity cfg m code v tok) VNone tok1 n1 →
  let r := keycloak_oauth_callback cfg w args m in
  finalized m r
  ∧ session r.2
    = delete "keycloak_code_verifier" (delete "keycloak_state"
        (<["auth_provider" := VStr "keycloak"]>
        (<["is_authed" := VBool true]> (session m))))
  ∧ sent r.2
    = log_after_identity cfg m code v tok
      ++ [cloud_token_request cfg; vms_request VNone tok1].
Proof.
  intros Hg Hex Hid H1 r. subst r.
  rewrite (callback_passes_guards _ _ _ _ _ _ Hg).
  unfold log_after_identity in *.
  erewrite try_except_ok.
  2:{ rewrite (exchange_reaches_identity _ _ _ _ _ _ Hex). unfold identify_and_finalize.
      erewrite bind_ok by (by apply fetch_user_info_claims).
      erewrite bind_ok by reflexivity.
      erewrite bind_ok
        by (apply lookup_returns_run; simpl; rewrite <- app_assoc; exact H1).
      reflexivity. }
  split; [done|]. simpl. split; [done|]. by rewrite <- !app_assoc.
Qed.

Lemma empty_claims_finalize_without_identity_witness :
  let m := Scenario.pending in
  let r := keycloak_oauth_callback Scenario.cfg Scenario2.world_empty_claims
             Scenario.args_ok m in
  finalized m r
  ∧ session r.2
    = delete "keycloak_code_verifier" (delete "keycloak_state"
        (<["auth_provider" := VStr "keycloak"]>
        (<["is_authed" := VBool true]> (session m))))
  ∧ sent r.2
    = log_after_identity Scenario.cfg m "c1" (VStr "V") (VStr "T1")
      ++ [cloud_token_request Scenario.cfg; vms_request VNone (VStr "S1")].
Proof.
  apply (empty_claims_finalize_without_identity Scenario.cfg
           Scenario2.world_empty_claims Scenario.args_ok Scenario.pending
           "c1" (VStr "V") (VStr "T1") (VStr "S1") (VInt 7)).
  - split; [reflexivity | exists "S"; repeat split; reflexivity
           | split; reflexivity | split; reflexivity].
  - eexists _, _. repeat split; reflexivity.
  - eexists. repeat split; reflexivity.
  - eexists _, _, _, _. repeat split; try reflexivity; simpl; lia.
Defined.

(** ** The index page *)

Lemma web_of_finalized_session s u n m :
  session m = finalized_session s u n →
  web m
  = (Ok (RenderTemplate "index.html"
           (index_context (VBool true)
              (user_info_dict (py_or (claim u "preferred_username") (claim u "name"))
                 (claim u "email") (claim u "cloud_project_id") n))), m).
Proof.
  intros Hs. unfold web, session_get_default, session_get. unfold mbind, M_bind.
  rewrite Hs. unfold finalized_session. simplify_map_eq.
  rewrite !Hs. unfold finalized_session. by simplify_map_eq.
Qed.

Lemma finalizing_session cfg w args m code v tok u tok1 n1 tok2 n2 :
  passes_guards args m code v →
  exchange_succeeds cfg w m code v tok →
  identity_obtained w (sent m ++ [token_request cfg code v])
    (userinfo_request cfg tok) u →
  u ≠ ∅ →
  lookup_returns cfg w (log_after_identity cfg m code v tok)
    (claim u "cloud_project_id") tok1 n1 →
  lookup_returns cfg w
    (log_after_identity cfg m code v tok
       ++ [cloud_token_request cfg; vms_request (claim u "cloud_project_id") tok1])
    (claim u "cloud_project_id") tok2 n2 →
  session (keycloak_oauth_callback cfg w args m).2 = finalized_session (session m) u n2.
Proof.
  intros Hg Hex Hid Hu H1 H2.
  rewrite (callback_passes_guards _ _ _ _ _ _ Hg).
  unfold log_after_identity in *.
  erewrite try_except_ok.
  2:{ rewrite (exchange_reaches_identity _ _ _ _ _ _ Hex). unfold identify_and_finalize.
      erewrite bind_ok by (by apply fetch_user_info_claims).
      erewrite bind_ok by reflexivity.
      erewrite bind_ok
        by (apply lookup_returns_run; simpl; rewrite <- app_assoc; exact H1).
      erewrite bind_ok by reflexivity.
      erewrite bind_ok by reflexivity.
      erewrite bind_ok
        by (apply identity_block_run; [done|]; simpl; rewrite <- !app_assoc;
            rewrite <- !app_assoc in H2; exact H2).
      reflexivity. }
  done.
Qed.

Lemma empty_claims_session cfg w args m code v tok tok1 n1 :
  passes_guards args m code v →
  exchange_succeeds cfg w m code v tok →
  identity_obtained w (sent m ++ [token_request cfg code v])
    (userinfo_request cfg tok) ∅ →
  lookup_returns cfg w (log_after_identity cfg m code v tok) VNone tok1 n1 →
  session (keycloak_oauth_callback cfg w args m).2
  = delete "keycloak_code_verifier" (delete "keycloak_state"
      (<["auth_provider" := VStr "keycloak"]>
      (<["is_authed" := VBool true]> (session m)))).
Proof.
  intros Hg Hex Hid H1.
  rewrite (callback_passes_guards _ _ _ _ _ _ Hg).
  unfold log_after_identity in *.
  erewrite try_except_ok.
  2:{ rewrite (exchange_reaches_identity _ _ _ _ _ _ Hex). unfold identify_and_finalize.
      erewrite bind_ok by (by apply fetch_user_info_claims).
      erewrite bind_ok by reflexivity.
      erewrite bind_ok
        by (apply lookup_returns_run; simpl; rewrite <- app_assoc; exact H1).
      reflexivity. }
  done.
Qed.

(** X11. After a callback that finalizes with non-empty claims (the
    guards pass, the exchange succeeds, the userinfo call returns
    non-empty claims and both resource-count lookups succeed), the index
    page is rendered as authenticated, with the name, email and project of
    these claims and the count of the second lookup, whatever identity
    the session held before. *)
Theorem web_shows_finalized_identity cfg w args m code v tok u tok1 n1 tok2 n2 :
  passes_guards args m code v →
  exchange_succeeds cfg w m code v tok →
  identity_obtained w (sent m ++ [token_request cfg code v])
    (userinfo_request cfg tok) u →
  u ≠ ∅ →
  lookup_returns cfg w (log_after_identity cfg m code v tok)
    (claim u "cloud_project_id") tok1 n1 →
  lookup_returns cfg w
    (log_after_identity cfg m code v tok
       ++ [cloud_token_request cfg; vms_request (claim u "cloud_project_id") tok1])
    (claim u "cloud_project_id") tok2 n2 →
  let r := keycloak_oauth_callback cfg w args m in
  web r.2
  = (Ok (RenderTemplate "index.html"
           (index_context (VBool true)
              (user_info_dict (py_or (claim u "preferred_username") (claim u "name"))
                 (claim u "email") (claim u "cloud_project_id") n2))), r.2).
Proof.
  intros Hg Hex Hid Hu H1 H2 r. subst r.
  apply (web_of_finalized_session (session m)).
  by eapply finalizing_session.
Qed.

Lemma web_shows_finalized_identity_witness :
  let r := keycloak_oauth_callback Scenario.cfg Scenario.world_ok
             Scenario.args_ok Scenario2.pending_after_bob in
  web r.2
  = (Ok (RenderTemplate "index.html"
           (index_context (VBool true)
              (user_info_dict
                 (py_or (claim Scenario.alice "preferred_username")
                        (claim Scenario.alice "name"))
                 (claim Scenario.alice "email")
                 (claim Scenario.alice "cloud_project_id") (VInt 7)))), r.2).
Proof.
  apply (web_shows_finalized_identity Scenario.cfg Scenario.world_ok Scenario.args_ok
           Scenario2.pending_after_bob "c1" (VStr "V") (VStr "T1") Scenario.alice
           (VStr "S1") (VInt 7) (VStr "S1") (VInt 7)).
  - split; [reflexivity | exists "S"; repeat split; reflexivity
           | split; reflexivity | split; reflexivity].
  - eexists _, _. repeat split; reflexivity.
  - eexists. repeat split; reflexivity.
  - intros H. assert (Scenario.alice !! "email" = None) as H' by (by rewrite H).
    discriminate H'.
  - eexists _, _, _, _. repeat split; try reflexivity; simpl; lia.
  - eexists _, _, _, _. repeat split; try reflexivity; simpl; lia.
Defined.

(** X22. After a callback that finalizes with empty claims, the index
    page is rendered as authenticated with whatever name, email, project
    and count the session held before the callback: the callback writes
    none of them and clears none of them, so the identity of an earlier
    user is shown. *)
Theorem web_after_empty_claims_shows_earlier_identity cfg w args m code v tok tok1 n1 :
  passes_guards args m code v →
  exchange_succeeds cfg w m code v tok →
  identity_obtained w (sent m ++ [token_request cfg code v])
    (userinfo_request cfg tok) ∅ →
  lookup_returns cfg w (log_after_identity cfg m code v tok) VNone tok1 n1 →
  let r := keycloak_oauth_callback cfg w args m in
  web r.2
  = (Ok (RenderTemplate "index.html"
           (index_context (VBool true)
              (user_info_dict
                 (default VNone (session m !! "user_name"))
                 (default VNone (session m !! "user_email"))
                 (default VNone (session m !! "user_cloud_project_id"))
                 (default VNone (session m !! "all_vms"))))), r.2).
Proof.
  intros Hg Hex Hid H1 r. subst r.
  pose proof (empty_claims_session _ _ _ _ _ _ _ _ _ Hg Hex Hid H1) as Hs.
  unfold web, session_get_default, session_get. unfold mbind, M_bind.
  rewrite !Hs. simplify_map_eq. rewrite !Hs. by simplify_map_eq.
Qed.

Lemma web_after_empty_claims_shows_earlier_identity_witness :
  let r := keycloak_oauth_callback Scenario.cfg Scenario2.world_empty_claims
             Scenario.args_ok Scenario2.pending_after_bob in
  web r.2
  = (Ok (RenderTemplate "index.html"
           (index_context (VBool true)
              (user_info_dict (VStr "bob") (VStr "bob@b.com") VNone (VInt 5)))), r.2).
Proof.
  apply (web_after_empty_claims_shows_earlier_identity Scenario.cfg
           Scenario2.world_empty_claims Scenario.args_ok Scenario2.pending_after_bob
           "c1" (VStr "V") (VStr "T1") (VStr "S1") (VInt 7)).
  - split; [reflexivity | exists "S"; repeat split; reflexivity
           | split; reflexivity | split; reflexivity].
  - eexists _, _. repeat split; reflexivity.
  - eexists. repeat split; reflexivity.
  - eexists _, _, _, _. repeat split; try reflexivity; simpl; lia.
Defined.

(** X12. The index page of a session that is not marked authenticated
    shows no identity, even when identity keys are still in the
    session. *)
Theorem web_hides_identity_when_anonymous m :
  truthy (default (VBool false) (session m !! "is_authed")) = false →
  web m
  = (Ok (RenderTemplate "index.html"
           (index_context (default (VBool false) (session m !! "is_authed")) VNone)), m).
Proof.
  intros H. unfold web, session_get_default. unfold mbind, M_bind. by rewrite H.
Qed.

Lemma web_hides_identity_when_anonymous_witness :
  web Scenario2.stale
  = (Ok (RenderTemplate "index.html"
           (index_context
              (default (VBool false) (session Scenario2.stale !! "is_authed")) VNone)),
     Scenario2.stale).
Proof.
  apply (web_hides_identity_when_anonymous Scenario2.stale). reflexivity.
Defined.

(** X13. After a logout the index page is rendered as anonymous, with
    no identity, whatever the session held before. *)
Theorem logout_then_web_is_anonymous m :
  web (logout m).2
  = (Ok (RenderTemplate "index.html" (index_context (VBool false) VNone)), (logout m).2).
Proof. reflexivity. Qed.

(** ** The static login *)

(** X14. A login whose two fields, a missing field counting as empty,
    equal the configured pair marks the session authenticated and
    flashes the success message; every other session key, a pending
    flow included, is left as it was. *)
Theorem login_accepts_the_configured_pair cfg form m :
  credentials_match cfg form →
  let r := login cfg form m in
  r.1 = Ok (Redirect "/")
  ∧ session r.2 = <["is_authed" := VBool true]> (session m)
  ∧ flashes r.2 = flashes m ++ [("success", [Lit "Успешный вход"])]
  ∧ pending_kept m r.2.
Proof.
  intros [Hl Hp] r. subst r. unfold login. rewrite Hl, Hp.
  rewrite !bool_decide_true by done. simpl.
  repeat split; unfold pending_kept; simpl; by simplify_map_eq.
Qed.

Lemma login_accepts_the_configured_pair_witness :
  let r := login Scenario.cfg Scenario2.form_ok Scenario.pending in
  r.1 = Ok (Redirect "/")
  ∧ session r.2 = <["is_authed" := VBool true]> (session Scenario.pending)
  ∧ flashes r.2 = flashes Scenario.pending ++ [("success", [Lit "Успешный вход"])]
  ∧ pending_kept Scenario.pending r.2.
Proof.
  apply (login_accepts_the_configured_pair Scenario.cfg Scenario2.form_ok
           Scenario.pending).
  split; reflexivity.
Defined.

(** X15. A login with any other pair flashes the error and leaves the
    session exactly as it was: it neither authenticates nor logs out a
    session that was already authenticated. *)
Theorem login_rejects_any_other_pair cfg form m :
  ¬ credentials_match cfg form →
  let r := login cfg form m in
  r.1 = Ok (Redirect "/")
  ∧ session r.2 = session m
  ∧ flashes r.2 = flashes m ++ [("error", [Lit "Неверный логин или пароль"])].
Proof.
  intros Hne r. subst r. unfold login.
  destruct (bool_decide (default "" (form !! "login") = USERNAME cfg)) eqn:E1;
    destruct (bool_decide (default "" (form !! "password") = PASSWORD cfg)) eqn:E2;
    simpl; try done.
  apply bool_decide_eq_true in E1, E2. by destruct Hne.
Qed.

Lemma login_rejects_any_other_pair_witness :
  let r := login Scenario.cfg Scenario2.form_wrong Scenario2.authed in
  r.1 = Ok (Redirect "/")
  ∧ session r.2 = session Scenario2.authed
  ∧ flashes r.2
    = flashes Scenario2.authed ++ [("error", [Lit "Неверный логин или пароль"])].
Proof.
  apply (login_rejects_any_other_pair Scenario.cfg Scenario2.form_wrong
           Scenario2.authed).
  intros [_ H]. vm_compute in H. discriminate H.
Defined.

(** ** The shape of the PKCE values *)

Lemma digit_in_alphabet i : In (base64.digit i) base64.urlsafe_alphabet.
Proof.
  unfold base64.digit. apply nth_In.
  change 63 with (Z.ones 6). rewrite Z.land_ones by lia.
  assert (0 ≤ i mod 2 ^ 6 < 64) by (apply Z.mod_pos_bound; lia).
  change (length base64.urlsafe_alphabet) with 64%nat. lia.
Qed.

Lemma safe_digit i : safe_byte (base64.digit i) = true.
Proof.
  assert (H : Forall (λ b, safe_byte b = true) base64.urlsafe_alphabet)
    by (unfold base64.urlsafe_alphabet; repeat constructor).
  rewrite List.Forall_forall in H. apply H, digit_in_alphabet.
Qed.

(** The encoding of [s] is a run of alphabet digits followed by the
    padding. *)
Lemma b64encode_shape s :
  ∃ ds k, base64.urlsafe_b64encode s = ds ++ repeat base64.pad_byte k
          ∧ Forall (λ b, safe_byte b = true) ds
          ∧ length ds = ((4 * length s + 2) / 3)%nat.
Proof.
  assert (H : ∀ n s, (length s ≤ n)%nat →
    ∃ ds k, base64.urlsafe_b64encode s = ds ++ repeat base64.pad_byte k
            ∧ Forall (λ b, safe_byte b = true) ds
            ∧ length ds = ((4 * length s + 2) / 3)%nat).
  { induction n as [|n IH]; intros [|x [|y [|z rest]]] Hlen; simpl in Hlen; try lia.
    - by exists [], 0%nat.
    - by exists [], 0%nat.
    - eexists [_; _], 2%nat. split; [reflexivity|].
      split; [repeat constructor; apply safe_digit | reflexivity].
    - eexists [_; _; _], 1%nat. split; [reflexivity|].
      split; [repeat constructor; apply safe_digit | reflexivity].
    - destruct (IH rest) as (ds & k & Henc & Hds & Hlen'); [lia|].
      eexists (_ :: _ :: _ :: _ :: ds), k.
      split; [simpl; by rewrite Henc|].
      split; [repeat constructor; try apply safe_digit; done|].
      simpl length. rewrite Hlen'.
      replace (4 * S (S (S (length rest))) + 2)%nat
        with (4 * length rest + 2 + 4 * 3)%nat by lia.
      rewrite Nat.div_add by lia. lia. }
  by apply (H (length s)).
Qed.

Lemma lstrip_repeat c k l : lstrip_byte c (repeat c k ++ l) = lstrip_byte c l.
Proof.
  induction k as [|k IH]; simpl; [done|].
  assert (Byte.eqb c c = true) as -> by (by apply Byte.byte_dec_lb). done.
Qed.

Lemma lstrip_safe l :
  Forall (λ b, safe_byte b = true) l → lstrip_byte base64.pad_byte l = l.
Proof.
  intros [|x l' Hx _]; simpl; [done|].
  destruct (Byte.eqb x base64.pad_byte) eqn:E; [|done].
  apply Byte.byte_dec_bl in E. subst x. discriminate Hx.
Qed.

Lemma rstrip_b64encode s :
  ∃ ds, rstrip_byte base64.pad_byte (base64.urlsafe_b64encode s) = ds
        ∧ Forall (λ b, safe_byte b = true) ds
        ∧ length ds = ((4 * length s + 2) / 3)%nat.
Proof.
  destruct (b64encode_shape s) as (ds & k & -> & Hds & Hlen).
  exists ds. split; [|done]. unfold rstrip_byte.
  rewrite rev_app_distr, rev_repeat, lstrip_repeat.
  rewrite lstrip_safe by (by apply List.Forall_rev). apply rev_involutive.
Qed.

Lemma length_string_of_list_byte l :
  String.length (String.string_of_list_byte l) = length l.
Proof.
  unfold String.string_of_list_byte. induction l as [|b l IH]; simpl; congruence.
Qed.

Lemma url_safe_string_of_list_byte l :
  Forall (λ b, safe_byte b = true) l →
  url_safe (String.string_of_list_byte l) = true.
Proof.
  unfold String.string_of_list_byte.
  induction 1 as [|b l Hb _ IH]; simpl; [done|].
  unfold safe_byte in Hb. by rewrite Hb, IH.
Qed.

(** A text made of safe characters is written as it is by
    [quote_plus]. *)
Lemma quote_plus_url_safe s : url_safe s = true → urllib.quote_plus s = s.
Proof.
  rewrite quote_plus_plus_quoted.
  induction s as [|c s IH]; simpl; [done|].
  intros [Hc Hs]%andb_prop. rewrite IH by done.
  unfold plus_quoter, urllib.quoter.
  rewrite (always_safe_differs c " "%char) by done. by rewrite Hc.
Qed.

Lemma b64_text_shape s :
  String.length (b64_text s) = ((4 * length s + 2) / 3)%nat
  ∧ url_safe (b64_text s) = true.
Proof.
  unfold b64_text. destruct (rstrip_b64encode s) as (ds & -> & Hds & Hlen).
  split; [by rewrite length_string_of_list_byte | by apply url_safe_string_of_list_byte].
Qed.

Lemma round_length st kw : length st = 8%nat → length (hashlib.round st kw) = 8%nat.
Proof.
  intros H. do 9 (destruct st as [|? st]; try discriminate H). reflexivity.
Qed.

Lemma fold_round_length l st :
  length st = 8%nat → length (fold_left hashlib.round l st) = 8%nat.
Proof.
  revert st. induction l as [|kw l IH]; intros st H; simpl; [done|].
  by apply IH, round_length.
Qed.

Lemma compress_length h block : length h = 8%nat → length (hashlib.compress h block) = 8%nat.
Proof.
  intros H. unfold hashlib.compress.
  rewrite length_zip_with, fold_round_length, H by done. done.
Qed.

Lemma be_bytes_length k n : length (hashlib.be_bytes k n) = k.
Proof. induction k as [|k IH]; simpl; congruence. Qed.

Lemma bind_be_bytes_length (h : list Z) :
  length (h ≫= hashlib.be_bytes 4) = (4 * length h)%nat.
Proof.
  induction h as [|x h IH]; [done|].
  rewrite bind_cons, length_app, be_bytes_length, IH. simpl. lia.
Qed.

(** A SHA-256 digest has 32 bytes. *)
Lemma sha256_length data : length (hashlib.sha256 data) = 32%nat.
Proof.
  unfold hashlib.sha256. rewrite length_fmap, bind_be_bytes_length.
  assert (H : ∀ l h, length h = 8%nat →
                length (fold_left hashlib.compress l h) = 8%nat).
  { induction l as [|b l IH]; intros h Hh; simpl; [done|].
    by apply IH, compress_length. }
  rewrite H; [done|]. by vm_compute.
Qed.

(** X16. Whatever the verifier, [generate_code_challenge] fails only
    on a verifier with a non-ASCII character; otherwise the challenge has
    43 characters, all letters, digits, [-] or [_] (no padding), so
    that [urlencode] writes it into the authorization URL unchanged. *)
Theorem challenge_is_43_url_safe_characters code_verifier :
  match generate_code_challenge code_verifier with
  | Ok challenge =>
      String.length challenge = 43%nat
      ∧ url_safe challenge = true
      ∧ urllib.quote_plus challenge = challenge
  | Raise e =>
      forallb is_ascii_byte (String.list_byte_of_string code_verifier) = false
      ∧ ∃ msg, e = PyException "UnicodeEncodeError" msg
  end.
Proof.
  unfold generate_code_challenge, encode_ascii.
  destruct (forallb is_ascii_byte (String.list_byte_of_string code_verifier));
    [|by eauto].
  unfold decode_ascii. rewrite is_ascii_b64_text.
  fold (b64_text (hashlib.sha256 (String.list_byte_of_string code_verifier))).
  destruct (b64_text_shape (hashlib.sha256 (String.list_byte_of_string code_verifier)))
    as [Hlen Hsafe].
  rewrite sha256_length in Hlen.
  split; [exact Hlen|]. split; [done | by apply quote_plus_url_safe].
Qed.

(** ** Flow initiation, further *)

(** X17. A flow initiation never raises (the ASCII encoding of the
    verifier cannot fail) and makes no HTTP request: it answers either
    status 500 with success false, the session and the random source
    untouched, or status 200 with success true after exactly two random
    draws. *)
Theorem init_always_answers cfg w m :
  let r := keycloak_oauth_init cfg w m in
  ∃ body status,
    r.1 = Ok (Jsonify body status)
    ∧ ((status = 500 ∧ body !! "success" = Some (VBool false)
        ∧ session r.2 = session m ∧ draws r.2 = draws m)
       ∨ (status = 200 ∧ body !! "success" = Some (VBool true)
          ∧ draws r.2 = (2 + draws m)%nat))
    ∧ sent r.2 = sent m
    ∧ flashes r.2 = flashes m.
Proof.
  intros r. subst r.
  destruct (config_complete cfg) eqn:Hc.
  - destruct (decide (w_system w (commands m) ping_command = 0)) as [Hp | Hp].
    + rewrite init_success by done. eexists _, _. split; [reflexivity|].
      split; [right; by simplify_map_eq | done].
    + rewrite init_unreachable by done. eexists _, _. split; [reflexivity|].
      split; [left; by simplify_map_eq | done].
  - unfold config_complete in Hc. destruct (keycloak_configured cfg) eqn:Hk.
    + rewrite init_no_origin by done. eexists _, _. split; [reflexivity|].
      split; [left; by simplify_map_eq | done].
    + rewrite init_not_configured by done. eexists _, _. split; [reflexivity|].
      split; [left; by simplify_map_eq | done].
Qed.

(** X18. When the random source returns the 32 bytes it is asked for, a
    successful initiation stores a state and a verifier of 43 characters
    each, all letters, digits, [-] or [_]: the length and alphabet RFC
    7636 asks of a verifier, and a state that needs no escaping. *)
Theorem issued_tokens_are_43_url_safe_characters cfg w m :
  config_complete cfg = true → w_system w (commands m) ping_command = 0 →
  draws_32_bytes w m →
  let r := keycloak_oauth_init cfg w m in
  ∃ S V,
    session r.2 !! "keycloak_state" = Some (VStr S)
    ∧ session r.2 !! "keycloak_code_verifier" = Some (VStr V)
    ∧ String.length S = 43%nat ∧ url_safe S = true
    ∧ String.length V = 43%nat ∧ url_safe V = true.
Proof.
  intros Hc Hp [Hv Hs] r. subst r. rewrite init_success by done.
  eexists _, _. cbn [snd session].
  split; [by simplify_map_eq|]. split; [by simplify_map_eq|].
  destruct (b64_text_shape (w_token_bytes w (1 + draws m) 32)) as [Hl1 Hu1].
  destruct (b64_text_shape (w_token_bytes w (draws m) 32)) as [Hl2 Hu2].
  rewrite Hs in Hl1. rewrite Hv in Hl2. done.
Qed.

Lemma issued_tokens_are_43_url_safe_characters_witness :
  let r := keycloak_oauth_init Scenario.cfg Scenario.world_ok Scenario.fresh in
  ∃ S V,
    session r.2 !! "keycloak_state" = Some (VStr S)
    ∧ session r.2 !! "keycloak_code_verifier" = Some (VStr V)
    ∧ String.length S = 43%nat ∧ url_safe S = true
    ∧ String.length V = 43%nat ∧ url_safe V = true.
Proof.
  apply (issued_tokens_are_43_url_safe_characters Scenario.cfg Scenario.world_ok
           Scenario.fresh); [reflexivity | reflexivity | split; reflexivity].
Defined.

(** X19. A successful initiation replaces the stored state and verifier
    of an earlier flow (one pending flow per session): unless the random
    source repeats the earlier state, a callback that carries it is then
    rejected with the CSRF error, without any outbound call. *)
Theorem reinitiation_replaces_pending_flow cfg w w' m args earlier :
  config_complete cfg = true → w_system w (commands m) ping_command = 0 →
  session m !! "keycloak_state" = Some (VStr earlier) →
  no_provider_error args → args !! "state" = Some earlier →
  b64_text (w_token_bytes w (1 + draws m) 32) ≠ earlier →
  let r0 := keycloak_oauth_init cfg w m in
  let r := keycloak_oauth_callback cfg w' args r0.2 in
  session r0.2 !! "keycloak_state" ≠ Some (VStr earlier)
  ∧ r.1 = Ok (Redirect "/")
  ∧ flashes r.2 = flashes r0.2 ++ [("error", csrf_message)]
  ∧ session r.2 = session r0.2
  ∧ sent r.2 = sent r0.2.
Proof.
  intros Hc Hp Hold Herr Hst Hne r0 r. subst r r0.
  rewrite init_success by done. cbn [snd].
  assert (Hnew : ∀ s0 : gmap string pyval,
    <["keycloak_code_verifier" := VStr (b64_text (w_token_bytes w (draws m) 32))]>
      (<["keycloak_state" := VStr (b64_text (w_token_bytes w (1 + draws m) 32))]> s0)
      !! "keycloak_state"
    = Some (VStr (b64_text (w_token_bytes w (1 + draws m) 32))))
    by (intros s0; by simplify_map_eq).
  split; [cbn [session]; rewrite Hnew; intros [= H]; by apply Hne|].
  rewrite callback_state_rejected; [done | done |].
  rewrite Hst. cbn [session]. rewrite Hnew. simpl.
  destruct earlier as [|c earlier]; [done|]. simpl.
  rewrite bool_decide_false by (intros H; by apply Hne). done.
Qed.

Lemma reinitiation_replaces_pending_flow_witness :
  let r0 := keycloak_oauth_init Scenario.cfg Scenario.world_ok Scenario.pending in
  let r := keycloak_oauth_callback Scenario.cfg Scenario.world_ok Scenario.args_ok r0.2 in
  session r0.2 !! "keycloak_state" ≠ Some (VStr "S")
  ∧ r.1 = Ok (Redirect "/")
  ∧ flashes r.2 = flashes r0.2 ++ [("error", csrf_message)]
  ∧ session r.2 = session r0.2
  ∧ sent r.2 = sent r0.2.
Proof.
  apply (reinitiation_replaces_pending_flow Scenario.cfg Scenario.world_ok
           Scenario.world_ok Scenario.pending Scenario.args_ok "S");
    try reflexivity.
  vm_compute. discriminate.
Defined.

(** ** The order of the outbound calls *)

Lemma matches_prefix_nil pats : matches_prefix pats [].
Proof. exists [], pats. split; [done | constructor]. Qed.

Lemma matches_prefix_all pats l : matches pats l → matches_prefix pats l.
Proof. intros H. exists pats, []. by rewrite app_nil_r. Qed.

Lemma matches_prefix_app_r pats more l :
  matches_prefix pats l → matches_prefix (pats ++ more) l.
Proof.
  intros (pre & suf & -> & H). exists pre, (suf ++ more). by rewrite app_assoc.
Qed.

Lemma matches_prefix_app_l pats more l1 l2 :
  matches pats l1 → matches_prefix more l2 → matches_prefix (pats ++ more) (l1 ++ l2).
Proof.
  intros H1 (pre & suf & -> & H2). exists (pats ++ pre), suf.
  split; [by rewrite app_assoc | by apply Forall2_app].
Qed.

Lemma trace_to_prefix pats {A} (c : M A) : trace pats c → trace_prefix pats c.
Proof.
  intros Hc m r m' H. destruct (Hc _ _ _ H) as (l & Hl & Hm). exists l.
  split; [done|]. destruct r; [by apply matches_prefix_all | done].
Qed.

Lemma trace_prefix_weaken pats more {A} (c : M A) :
  trace_prefix pats c → trace_prefix (pats ++ more) c.
Proof.
  intros Hc m r m' H. destruct (Hc _ _ _ H) as (l & Hl & Hm). exists l.
  split; [done | by apply matches_prefix_app_r].
Qed.

Lemma trace_bind p1 p2 {A B} (c : M A) (f : A → M B) :
  trace p1 c → (∀ a, trace p2 (f a)) → trace (p1 ++ p2) (c ≫= f).
Proof.
  intros Hc Hf m r m' H.
  apply bind_inv in H as [(a & m1 & H1 & H2) | (e & H1 & ->)].
  - destruct (Hc _ _ _ H1) as (l1 & Hl1 & Hm1), (Hf _ _ _ _ H2) as (l2 & Hl2 & Hm2).
    exists (l1 ++ l2). split; [by rewrite Hl2, Hl1, app_assoc|].
    destruct r; [by apply Forall2_app | by apply matches_prefix_app_l].
  - destruct (Hc _ _ _ H1) as (l1 & Hl1 & Hm1). exists l1.
    split; [done | by apply matches_prefix_app_r].
Qed.

Lemma trace_prefix_bind p1 p2 {A B} (c : M A) (f : A → M B) :
  trace p1 c → (∀ a, trace_prefix p2 (f a)) → trace_prefix (p1 ++ p2) (c ≫= f).
Proof.
  intros Hc Hf m r m' H.
  apply bind_inv in H as [(a & m1 & H1 & H2) | (e & H1 & ->)].
  - destruct (Hc _ _ _ H1) as (l1 & Hl1 & Hm1), (Hf _ _ _ _ H2) as (l2 & Hl2 & Hm2).
    exists (l1 ++ l2). split; [by rewrite Hl2, Hl1, app_assoc|].
    by apply matches_prefix_app_l.
  - destruct (Hc _ _ _ H1) as (l1 & Hl1 & Hm1). exists l1.
    split; [done | by apply matches_prefix_app_r].
Qed.

Lemma trace_prefix_then_silent pats {A B} (c : M A) (f : A → M B) :
  trace_prefix pats c → (∀ a, trace [] (f a)) → trace_prefix pats (c ≫= f).
Proof.
  intros Hc Hf m r m' H.
  apply bind_inv in H as [(a & m1 & H1 & H2) | (e & H1 & ->)].
  - destruct (Hc _ _ _ H1) as (l1 & Hl1 & Hm1), (Hf _ _ _ _ H2) as (l2 & Hl2 & Hm2).
    assert (l2 = []) as ->.
    { destruct r; [by inversion Hm2|].
      destruct Hm2 as (pre & suf & Hnil & Hm2). symmetry in Hnil.
      apply app_eq_nil in Hnil as [-> ->]. by inversion Hm2. }
    exists l1. split; [by rewrite Hl2, app_nil_r | done].
  - by eapply Hc.
Qed.

Lemma trace_prefix_try pats {A} (body : M A) handler :
  trace_prefix pats body → (∀ e, trace [] (handler e)) →
  trace_prefix pats (try_except_RequestException body handler).
Proof.
  intros Hb Hh m r m' H. unfold try_except_RequestException in H.
  destruct (body m) as [[a|[cls msg|cls msg]] m1] eqn:E.
  - inversion H; subst. by eapply Hb.
  - destruct (Hb _ _ _ E) as (l1 & Hl1 & Hm1), (Hh _ _ _ _ H) as (l2 & Hl2 & Hm2).
    assert (l2 = []) as ->.
    { destruct r; [by inversion Hm2|].
      destruct Hm2 as (pre & suf & Hnil & Hm2). symmetry in Hnil.
      apply app_eq_nil in Hnil as [-> ->]. by inversion Hm2. }
    exists l1. split; [by rewrite Hl2, app_nil_r | done].
  - inversion H; subst. by eapply Hb.
Qed.

(** A computation that leaves the request log alone. *)
Lemma trace_silent {A} (c : M A) :
  (∀ m r m', c m = (r, m') → sent m' = sent m) → trace [] c.
Proof.
  intros Hc m r m' H. exists []. rewrite app_nil_r. split; [by eapply Hc|].
  destruct r; [constructor | apply matches_prefix_nil].
Qed.

Lemma trace_ret {A} (a : A) : trace [] (mret a).
Proof. apply trace_silent. intros m r m' H. by inversion H. Qed.

Lemma trace_raise {A} e : trace [] (raise (A := A) e).
Proof. apply trace_silent. intros m r m' H. by inversion H. Qed.

Lemma trace_lift {A} (o : outcome A) : trace [] (lift o).
Proof. apply trace_silent. intros m r m' H. by inversion H. Qed.

Lemma trace_get v key dflt : trace [] (py_get_default v key dflt).
Proof. destruct v; simpl; first [apply trace_raise | apply trace_ret]. Qed.

Lemma trace_in key v : trace [] (py_in key v).
Proof. destruct v; simpl; first [apply trace_raise | apply trace_ret]. Qed.

Lemma trace_raise_for_status r : trace [] (raise_for_status r).
Proof.
  unfold raise_for_status. repeat case_match; first [apply trace_raise | apply trace_ret].
Qed.

Lemma trace_set_session f : trace [] (set_session f).
Proof. apply trace_silent. intros m r m' H. by inversion H. Qed.

Lemma trace_flash message category : trace [] (flash message category).
Proof. apply trace_silent. intros m r m' H. by inversion H. Qed.

Lemma trace_send (P : http_request → Prop) w rq : P rq → trace [P] (http_send w rq).
Proof.
  intros HP m r m' H. exists [rq]. unfold http_send in H.
  destruct (w_send w (sent m) rq); inversion H; subst; simpl; (split; [done|]).
  - by repeat constructor.
  - apply matches_prefix_all. by repeat constructor.
Qed.

Ltac silent :=
  repeat first
    [ apply trace_ret | apply trace_raise | apply trace_lift | apply trace_get
    | apply trace_in | apply trace_raise_for_status | apply trace_set_session
    | apply trace_flash
    | apply (trace_bind [] []); [| intros ?]
    | case_match ].

Lemma trace_cloud_token cfg w :
  trace [eq (cloud_token_request cfg)] (get_access_token_from_cloud cfg w).
Proof.
  unfold get_access_token_from_cloud, response_json, py_get.
  apply (trace_bind [_] []); [by apply trace_send | intros ?]. silent.
Qed.

Lemma trace_vms cfg w p : trace (lookup_requests cfg) (get_all_vms_in_cloud cfg w p).
Proof.
  unfold get_all_vms_in_cloud, response_json.
  apply (trace_bind [_] [_]); [apply trace_cloud_token | intros token].
  apply (trace_bind [_] []); [apply trace_send; by eexists _, _ | intros ?]. silent.
Qed.

Lemma trace_user_info cfg w tok :
  trace [is_userinfo_request cfg] (fetch_user_info cfg w tok).
Proof.
  intros m r m' H. exists [userinfo_request cfg tok].
  assert (Hm : matches [is_userinfo_request cfg] [userinfo_request cfg tok])
    by (repeat constructor; by eexists).
  unfold fetch_user_info, try_except_RequestException, mbind, M_bind, http_send in H.
  destruct (w_send w (sent m) (userinfo_request cfg tok)) as [resp | [cls msg | cls msg]].
  - destruct (status_code resp =? 200).
    + unfold response_json, lift in H.
      destruct (rs_json resp) as [v | [c0 m0 | c0 m0]]; inversion H; subst;
        (split; [done|]); try done; by apply matches_prefix_all.
    + inversion H; subst. done.
  - inversion H; subst. done.
  - inversion H; subst. split; [done | by apply matches_prefix_all].
Qed.

Lemma trace_identify cfg w tok :
  trace_prefix (identity_requests cfg) (identify_and_finalize cfg w tok).
Proof.
  unfold identify_and_finalize, py_get, session_set, session_pop.
  apply (trace_prefix_bind [_] (lookup_requests cfg ++ lookup_requests cfg));
    [apply trace_user_info | intros user_info].
  apply (trace_prefix_bind [] (lookup_requests cfg ++ lookup_requests cfg));
    [apply trace_get | intros p].
  apply (trace_prefix_bind (lookup_requests cfg) (lookup_requests cfg));
    [apply trace_vms | intros ?].
  apply (trace_prefix_bind [] (lookup_requests cfg)); [silent | intros ?].
  apply (trace_prefix_bind [] (lookup_requests cfg)); [silent | intros ?].
  apply trace_prefix_then_silent; [| intros ?; silent].
  case_match.
  - apply trace_to_prefix.
    do 7 (apply (trace_bind [] (lookup_requests cfg)); [silent | intros ?]).
    change (lookup_requests cfg) with (lookup_requests cfg ++ []) at 1.
    apply trace_bind; [apply trace_vms | intros ?]. silent.
  - apply (trace_prefix_weaken [] (lookup_requests cfg)), trace_to_prefix, trace_ret.
Qed.

(** From the token request on, the requests of a callback follow the
    fixed order; the token request is always the first. *)
Lemma exchange_requests cfg w code v m r m' :
  exchange_and_finalize cfg w code v m = (r, m') →
  ∃ rest, sent m' = sent m ++ token_request cfg code v :: rest
          ∧ matches_prefix (identity_requests cfg) rest.
Proof.
  unfold exchange_and_finalize. intros H.
  apply bind_inv in H as [(resp & m1 & H1 & H) | (e & H1 & ->)].
  2:{ exists []. split; [|apply matches_prefix_nil].
      unfold http_send in H1. destruct (w_send w (sent m) _); by inversion H1. }
  assert (sent m1 = sent m ++ [token_request cfg code v]) as Hm1.
  { unfold http_send in H1. destruct (w_send w (sent m) _); by inversion H1. }
  match type of H with
  | ?c m1 = _ => assert (Hc : trace_prefix (identity_requests cfg) c)
  end.
  { unfold response_json, py_get.
    apply (trace_prefix_bind [] (identity_requests cfg)); [silent | intros result].
    apply (trace_prefix_bind [] (identity_requests cfg)); [silent | intros has_error].
    destruct has_error.
    - apply (trace_prefix_weaken [] (identity_requests cfg)), trace_to_prefix. silent.
    - apply (trace_prefix_bind [] (identity_requests cfg)); [silent | intros tok].
      case_match.
      + apply (trace_prefix_weaken [] (identity_requests cfg)), trace_to_prefix. silent.
      + apply trace_identify. }
  destruct (Hc _ _ _ H) as (rest & Hrest & Hm). exists rest.
  split; [by rewrite Hrest, Hm1, <- app_assoc | done].
Qed.

Lemma guarded_exchange_requests cfg w code v m r m' :
  try_except_RequestException (exchange_and_finalize cfg w code v) api_error m = (r, m') →
  ∃ rest, sent m' = sent m ++ token_request cfg code v :: rest
          ∧ matches_prefix (identity_requests cfg) rest.
Proof.
  unfold try_except_RequestException. intros E.
  destruct (exchange_and_finalize _ _ _ _ m) as [r1 m1] eqn:E1.
  apply exchange_requests in E1 as (rest & Hsent & Hm).
  assert (sent m' = sent m1) as ->; [|by exists rest].
  destruct r1 as [a|[cls msg|cls msg]]; inversion E; subst; done.
Qed.

(** X20. The outbound requests of a callback always come in one order:
    the token request built from the code and the stored verifier, the
    userinfo request, then twice the service-token request followed by
    the inventory request. A callback sends the first few of these six
    (none when a guard fails), never more, never in another order. *)
Theorem callback_requests_in_order cfg w args m :
  let r := keycloak_oauth_callback cfg w args m in
  ∃ l, sent r.2 = sent m ++ l
       ∧ matches_prefix
           (callback_requests cfg (default "" (args !! "code"))
              (default VNone (session m !! "keycloak_code_verifier"))) l
       ∧ (length l ≤ 6)%nat.
Proof.
  intros r. subst r.
  assert (Hlen : ∀ code v l,
    matches_prefix (callback_requests cfg code v) l → (length l ≤ 6)%nat).
  { intros code v l (pre & suf & Heq & Hm).
    apply Forall2_length in Hm. rewrite <- Hm.
    apply (f_equal length) in Heq. rewrite length_app in Heq. simpl in Heq. lia. }
  assert (Hnone : ∀ f,
    ∃ l, sent (add_flash f m) = sent m ++ l
         ∧ matches_prefix
             (callback_requests cfg (default "" (args !! "code"))
                (default VNone (session m !! "keycloak_code_verifier"))) l
         ∧ (length l ≤ 6)%nat).
  { intros f. exists []. simpl. rewrite app_nil_r.
    split; [done|]. split; [apply matches_prefix_nil | lia]. }
  destruct (truthy (of_arg (args !! "error"))) eqn:Herr.
  { rewrite callback_provider_error by done. apply Hnone. }
  destruct (negb (truthy (of_arg (args !! "state")))
            || arg_ne (args !! "state") (default VNone (session m !! "keycloak_state")))
    eqn:Hst.
  { rewrite callback_state_rejected by done. apply Hnone. }
  unfold keycloak_oauth_callback. rewrite Herr. cbv zeta.
  erewrite bind_ok by reflexivity. rewrite Hst.
  destruct (args !! "code") as [[|c code]|]; try apply Hnone.
  erewrite bind_ok by reflexivity.
  destruct (negb (truthy (default VNone (session m !! "keycloak_code_verifier"))));
    [apply Hnone|].
  simpl default.
  destruct (try_except_RequestException _ _ m) as [r m'] eqn:E.
  apply guarded_exchange_requests in E as (rest & Hsent & Hm).
  assert (Hall : matches_prefix
    (callback_requests cfg (String c code)
       (default VNone (session m !! "keycloak_code_verifier")))
    (token_request cfg (String c code)
       (default VNone (session m !! "keycloak_code_verifier")) :: rest)).
  { apply (matches_prefix_app_l [_] _ [_] rest); [by repeat constructor | done]. }
  simpl. eexists. split; [exact Hsent|]. split; [done | by eapply Hlen].
Qed.



(** ** A failed resource count, at either lookup *)

(** The identity block of the callback (lines 227-231) when its lookup
    fails: the three identity fields are written, [all_vms] is not. *)
Lemma identity_block_raises cfg w u (p : pyval) e m :
  u ≠ ∅ →
  lookup_fails cfg w (sent m) p e →
  ∃ m',
    (if truthy (VDict u) then
       email ← py_get (VDict u) "email";
       session_set "user_email" email;;
       preferred_username ← py_get (VDict u) "preferred_username";
       user_name ← (if truthy preferred_username then mret preferred_username
                    else py_get (VDict u) "name");
       session_set "user_name" user_name;;
       project ← py_get (VDict u) "cloud_project_id";
       session_set "user_cloud_project_id" project;;
       all_vms ← get_all_vms_in_cloud cfg w p;
       session_set "all_vms" all_vms
     else mret tt) m
    = (Raise e, m')
    ∧ session m'
      = <["user_cloud_project_id" := claim u "cloud_project_id"]>
        (<["user_name" := py_or (claim u "preferred_username") (claim u "name")]>
        (<["user_email" := claim u "email"]> (session m)))
    ∧ flashes m' = flashes m
    ∧ ∃ cls msg, e = RequestException cls msg.
Proof.
  intros Hu Hl. rewrite truthy_claims by done. unfold claim, py_or.
  set (s3 := <["user_cloud_project_id" := default VNone (u !! "cloud_project_id")]>
      (<["user_name" := if truthy (default VNone (u !! "preferred_username"))
                        then default VNone (u !! "preferred_username")
                        else default VNone (u !! "name")]>
      (<["user_email" := default VNone (u !! "email")]> (session m)))).
  destruct (lookup_fails_raises cfg w p (with_session s3 m) e Hl)
    as (m' & Hrun & Hs & Hf & He).
  exists m'. split; [|by rewrite Hs, Hf].
  erewrite bind_ok by reflexivity.
  erewrite bind_ok by reflexivity.
  erewrite bind_ok by reflexivity.
  subst s3.
  destruct (truthy (default VNone (u !! "preferred_username")));
    erewrite bind_ok by reflexivity;
    erewrite bind_ok by reflexivity;
    erewrite bind_ok by reflexivity;
    erewrite bind_ok by reflexivity;
    (erewrite bind_raise; [reflexivity | exact Hrun]).
Qed.

(** C2, amended. When the callback has reached the resource-count step
    and one of its two lookups fails by a [requests] exception (transport
    error or 4xx/5xx status, at the service-token call or at the
    inventory call), no exception reaches the caller: the callback
    flashes the API error, and nothing else, and redirects. The flow is
    not finalized: [all_vms] is left as it was and the stored state and
    verifier stay in the session. What has been written depends on the
    lookup that fails. At the first (line 223) the session is exactly
    what it was before the callback, so [is_authed] is not set by it. At
    the second (line 231) [is_authed], [auth_provider] and the three
    identity fields are already written: the session is marked
    authenticated although the callback reports an error. *)
Theorem resource_failure_aborts cfg w args m code v tok u pos e :
  passes_guards args m code v →
  exchange_succeeds cfg w m code v tok →
  identity_obtained w (sent m ++ [token_request cfg code v]) (userinfo_request cfg tok) u →
  resource_count_fails cfg w m code v tok u pos e →
  let r := keycloak_oauth_callback cfg w args m in
  r.1 = Ok (Redirect "/")
  ∧ flashes r.2 = flashes m ++ [("error", Lit "Ошибка API: " :: exn_str e)]
  ∧ session r.2 = session_at_failure pos u (session m)
  ∧ session r.2 !! "is_authed"
    = match pos with
      | FirstLookup => session m !! "is_authed"
      | SecondLookup => Some (VBool true)
      end
  ∧ session r.2 !! "all_vms" = session m !! "all_vms"
  ∧ pending_kept m r.2.
Proof.
  intros Hg Hex Hid Hfail r. subst r. rewrite (callback_passes_guards _ _ _ _ _ _ Hg).
  pose (m2 := add_sent (userinfo_request cfg tok) (add_sent (token_request cfg code v) m)).
  assert (Hlog : sent m2 = log_after_identity cfg m code v tok)
    by (unfold log_after_identity; simpl; by rewrite <- app_assoc).
  destruct pos; cbn [resource_count_fails session_at_failure] in *.
  - destruct (lookup_fails_raises cfg w (claim u "cloud_project_id") m2 e)
      as (m' & Hrun & Hs & Hf & cls & msg & ->); [by rewrite Hlog|].
    erewrite try_except_caught.
    2:{ rewrite (exchange_reaches_identity _ _ _ _ _ _ Hex). unfold identify_and_finalize.
        erewrite bind_ok by (by apply fetch_user_info_claims).
        erewrite bind_ok by reflexivity.
        erewrite bind_raise; [done|]. exact Hrun. }
    unfold pending_kept. simpl. rewrite Hs, Hf. done.
  - destruct Hfail as (Hu & tok1 & n1 & H1 & H2).
    pose (p := claim u "cloud_project_id").
    pose (m4 := with_session
                  (<["auth_provider" := VStr "keycloak"]>
                     (<["is_authed" := VBool true]> (session m)))
                  (add_sent (vms_request p tok1) (add_sent (cloud_token_request cfg) m2))).
    destruct (identity_block_raises cfg w u p e m4 Hu)
      as (m' & Hrun & Hs & Hf & cls & msg & ->).
    { subst m4 p. simpl. rewrite <- !app_assoc. simpl.
      unfold log_after_identity in H2. rewrite <- !app_assoc in H2. exact H2. }
    assert (Hbody : exchange_and_finalize cfg w code v m
                    = (Raise (RequestException cls msg), m')).
    { rewrite (exchange_reaches_identity _ _ _ _ _ _ Hex). unfold identify_and_finalize.
      erewrite bind_ok by (by apply fetch_user_info_claims).
      erewrite bind_ok by reflexivity.
      erewrite bind_ok by (apply lookup_returns_run; fold m2; rewrite Hlog; exact H1).
      erewrite bind_ok by reflexivity.
      erewrite bind_ok by reflexivity.
      erewrite bind_raise; [reflexivity | exact Hrun]. }
    rewrite (try_except_caught _ _ _ _ _ _ Hbody).
    unfold pending_kept. simpl. rewrite Hs, Hf. subst m4. simpl.
    split; [done|]. split; [done|]. split; [done|].
    split; [by simplify_map_eq|]. split; [by simplify_map_eq|].
    split; by simplify_map_eq.
Qed.

Lemma resource_failure_aborts_witness :
  let m := Scenario.pending in
  let r := keycloak_oauth_callback Scenario.cfg Scenario2.world_second_lookup_down
             Scenario.args_ok m in
  let e := RequestException "HTTPError"
             [Val (VInt 500); Lit " Server Error: "; Lit "Internal Server Error";
              Lit " for url: "; Lit Scenario.cloud_token_url] in
  r.1 = Ok (Redirect "/")
  ∧ flashes r.2 = flashes m ++ [("error", Lit "Ошибка API: " :: exn_str e)]
  ∧ session r.2 = session_at_failure SecondLookup Scenario.alice (session m)
  ∧ session r.2 !! "is_authed" = Some (VBool true)
  ∧ session r.2 !! "all_vms" = session m !! "all_vms"
  ∧ pending_kept m r.2.
Proof.
  apply (resource_failure_aborts Scenario.cfg Scenario2.world_second_lookup_down
           Scenario.args_ok Scenario.pending "c1" (VStr "V") (VStr "T1") Scenario.alice
           SecondLookup).
  - split.
    + reflexivity.
    + exists "S". repeat split; reflexivity.
    + split; reflexivity.
    + split; reflexivity.
  - eexists _, _. repeat split; reflexivity.
  - eexists. repeat split; reflexivity.
  - split.
    + intros H. assert (Scenario.alice !! "email" = None) as H' by (by rewrite H).
      discriminate H'.
    + exists (VStr "S1"), (VInt 7). split.
      * eexists _, _, _, _. repeat split; try reflexivity; simpl; lia.
      * apply at_service_token.
        apply (server_error _ _ _
                 (Scenario.json_response 500 "Internal Server Error"
                    Scenario.cloud_token_url ∅)); [reflexivity | simpl; lia].
Defined.
